(** * Snowflake codec (src/index.ts): a shallow embedding and its properties

    The TypeScript class [Snowflake] packs a timestamp, a shard id and a
    process-wide sequence counter into one integer, rendered as a decimal
    string, and unpacks such strings again.  The embedding below follows
    the source line by line.  The parts of the JavaScript runtime the class
    calls ([BigInt], [Number], [parseInt], [String.prototype.substring],
    [Date], the remainder and addition of Numbers) are modelled in module
    [Js] after ECMA-262.

    Scope of the runtime model:
    - a String is a list of code units; only code units below 256 occur;
    - a Number is an integer-valued double, NaN or an infinity.  Integers
      are kept as [Z] and every operation that produces a Number rounds to
      the nearest double ([round_to_double], ties to even).  Numbers with
      a fractional part and the sign of zero are outside the model.  A
      statement over every [Num z] covers every integer-valued double;
    - a BigInt is a [Z]. *)

From Stdlib Require Import ZArith List Ascii String Bool Lia.
Import ListNotations.
Open Scope Z_scope.

(* ================================================================== *)
(** * The runtime *)
(* ================================================================== *)

Module Js.

(** ** Strings *)

Definition jsstring := list ascii.

Definition str (s : string) : jsstring := list_ascii_of_string s.

Definition code (c : ascii) : Z := Z.of_N (N_of_ascii c).

(** ** Completions: a call returns normally or throws *)

Inductive error := RangeError | SyntaxError.

Inductive completion (A : Type) : Type :=
| Normal (a : A)
| Throw (e : error).
Arguments Normal {A} a.
Arguments Throw {A} e.

Definition returns {A} (c : completion A) : bool :=
  match c with Normal _ => true | Throw _ => false end.

(** ** Numbers *)

Inductive number :=
| Num (z : Z)
| NaN
| Infinity (negative : bool).

(** The double nearest to the integer [z], as an integer (when it is
    finite): 53 significant bits, ties to even. *)
Definition round_to_double (z : Z) : Z :=
  let a := Z.abs z in
  if a <? 2 ^ 53 then z
  else
    let e := Z.log2 a - 52 in
    let q := a / 2 ^ e in
    let r := a mod 2 ^ e in
    let half := 2 ^ (e - 1) in
    let q' := if r <? half then q
              else if half <? r then q + 1
              else if Z.even q then q else q + 1 in
    Z.sgn z * (q' * 2 ^ e).

(** The Number value for a mathematical integer. *)
Definition Number_of_Z (z : Z) : number :=
  let r := round_to_double z in
  if 2 ^ 1024 <=? Z.abs r then Infinity (z <? 0) else Num r.

(** [x + y] on Numbers. *)
Definition number_add (x y : number) : number :=
  match x, y with
  | NaN, _ | _, NaN => NaN
  | Infinity a, Infinity b => if Bool.eqb a b then Infinity a else NaN
  | Infinity a, Num _ | Num _, Infinity a => Infinity a
  | Num a, Num b => Number_of_Z (a + b)
  end.

(** [n % d] on Numbers: the remainder takes the sign of the dividend. *)
Definition number_remainder (n d : number) : number :=
  match n, d with
  | NaN, _ | _, NaN => NaN
  | Infinity _, _ => NaN
  | Num a, Infinity _ => Num a
  | Num a, Num b => if b =? 0 then NaN else Num (Z.rem a b)
  end.

(** ToBoolean of a Number: [0] and [NaN] are falsy. *)
Definition ToBoolean (n : number) : bool :=
  match n with
  | Num z => negb (z =? 0)
  | NaN => false
  | Infinity _ => true
  end.

(** ** BigInt *)

(** [BigInt(n)] for a Number. *)
Definition BigInt_of_number (n : number) : completion Z :=
  match n with
  | Num z => Normal z
  | NaN | Infinity _ => Throw RangeError
  end.

(** [Number(b)] for a BigInt. *)
Definition Number_of_BigInt (b : Z) : number := Number_of_Z b.

Definition digit_char (d : Z) : ascii :=
  if d <? 10 then ascii_of_N (Z.to_N (48 + d)) else ascii_of_N (Z.to_N (87 + d)).

Fixpoint digits_of (radix : Z) (fuel : nat) (n : Z) (acc : jsstring) : jsstring :=
  match fuel with
  | O => acc
  | S fuel' =>
      let acc' := digit_char (n mod radix) :: acc in
      if n <? radix then acc' else digits_of radix fuel' (n / radix) acc'
  end.

(** [b.toString(radix)]: a minus sign, then the digits of the magnitude. *)
Definition BigInt_toString (radix : Z) (b : Z) : jsstring :=
  let a := Z.abs b in
  let ds := digits_of radix (S (Z.to_nat (Z.log2 a))) a [] in
  if b <? 0 then "-"%char :: ds else ds.

(** StrWhiteSpaceChar, among the code units below 256. *)
Definition is_whitespace (c : ascii) : bool :=
  let n := code c in
  (n =? 9) || (n =? 10) || (n =? 11) || (n =? 12) || (n =? 13)
  || (n =? 32) || (n =? 160).

Fixpoint trim_start (s : jsstring) : jsstring :=
  match s with
  | c :: s' => if is_whitespace c then trim_start s' else s
  | [] => []
  end.

Definition trim (s : jsstring) : jsstring :=
  rev (trim_start (rev (trim_start s))).

Definition digit_value (c : ascii) : option Z :=
  let n := code c in
  if (48 <=? n) && (n <=? 57) then Some (n - 48)
  else if (97 <=? n) && (n <=? 122) then Some (n - 87)
  else if (65 <=? n) && (n <=? 90) then Some (n - 55)
  else None.

Definition radix_digit (radix : Z) (c : ascii) : option Z :=
  match digit_value c with
  | Some d => if d <? radix then Some d else None
  | None => None
  end.

(** The value of a string made of radix digits only. *)
Fixpoint digits_value (radix : Z) (acc : Z) (s : jsstring) : option Z :=
  match s with
  | [] => Some acc
  | c :: s' =>
      match radix_digit radix c with
      | Some d => digits_value radix (acc * radix + d) s'
      | None => None
      end
  end.

Definition nonempty_digits_value (radix : Z) (s : jsstring) : option Z :=
  match s with
  | [] => None
  | _ :: _ => digits_value radix 0 s
  end.

Definition is_char (c : ascii) (s : string) : bool :=
  existsb (Ascii.eqb c) (list_ascii_of_string s).

(** StringToBigInt: white space is trimmed, the empty string is zero, a
    decimal literal may carry a sign, and the prefixes 0x, 0o and 0b
    select another radix. *)
Definition StringToBigInt (s : jsstring) : option Z :=
  match trim s with
  | [] => Some 0
  | c :: rest =>
      if is_char c "+" then nonempty_digits_value 10 rest
      else if is_char c "-" then option_map Z.opp (nonempty_digits_value 10 rest)
      else
        match rest with
        | p :: ds =>
            if is_char c "0" && is_char p "xX" then nonempty_digits_value 16 ds
            else if is_char c "0" && is_char p "oO" then nonempty_digits_value 8 ds
            else if is_char c "0" && is_char p "bB" then nonempty_digits_value 2 ds
            else digits_value 10 0 (c :: rest)
        | [] => digits_value 10 0 (c :: rest)
        end
  end.

(** [BigInt(s)] for a String. *)
Definition BigInt_of_string (s : jsstring) : completion Z :=
  match StringToBigInt s with
  | Some z => Normal z
  | None => Throw SyntaxError
  end.

(** ** parseInt *)

Fixpoint take_digits (radix : Z) (s : jsstring) : jsstring :=
  match s with
  | c :: s' =>
      match radix_digit radix c with
      | Some _ => c :: take_digits radix s'
      | None => []
      end
  | [] => []
  end.

Definition strip_hex_prefix (s : jsstring) : jsstring :=
  match s with
  | c :: p :: s' => if is_char c "0" && is_char p "xX" then s' else s
  | _ => s
  end.

(** [parseInt(s, radix)]: leading white space and a sign are skipped, the
    longest prefix of radix digits is read, and anything after it is
    ignored; no digit at all gives NaN. *)
Definition parseInt (s : jsstring) (radix : Z) : number :=
  let s1 := trim_start s in
  let '(sign, s2) :=
    match s1 with
    | c :: s' =>
        if is_char c "-" then (-1, s')
        else if is_char c "+" then (1, s')
        else (1, s1)
    | [] => (1, s1)
    end in
  if (radix =? 0) || ((2 <=? radix) && (radix <=? 36)) then
    let r := if radix =? 0 then 10 else radix in
    let s3 := if (radix =? 0) || (radix =? 16) then strip_hex_prefix s2 else s2 in
    let r := if (radix =? 0) && negb (List.length s3 =? List.length s2)%nat then 16 else r in
    match take_digits r s3 with
    | [] => NaN
    | ds =>
        match digits_value r 0 ds with
        | Some v => Number_of_Z (sign * v)
        | None => NaN
        end
    end
  else NaN.

(** ** String.prototype.substring *)

(** ToIntegerOrInfinity of an index, clamped to [0, len]. *)
Definition clamp_index (n : number) (len : Z) : Z :=
  match n with
  | Num z => Z.min (Z.max z 0) len
  | NaN => 0
  | Infinity true => 0
  | Infinity false => len
  end.

Definition substring (s : jsstring) (start : number) (end_ : option number) : jsstring :=
  let len := Z.of_nat (List.length s) in
  let intStart := clamp_index start len in
  let intEnd := match end_ with Some e => clamp_index e len | None => len end in
  let from := Z.min intStart intEnd in
  let to := Z.max intStart intEnd in
  firstn (Z.to_nat (to - from)) (skipn (Z.to_nat from) s).

(** ** Date *)

(** TimeClip: a time value is an integer of at most 8.64e15 in magnitude;
    everything else is NaN (an invalid Date). *)
Definition TimeClip (t : number) : number :=
  match t with
  | Num z => if Z.abs z <=? 8640000000000000 then Num z else NaN
  | NaN | Infinity _ => NaN
  end.

(** A Date object, by the Number it was built from. *)
Inductive Date := new_Date (value : number).

Definition Date_valueOf (d : Date) : number :=
  match d with new_Date v => TimeClip v end.

Inductive DateOrNumber :=
| IsDate (d : Date)
| IsNumber (n : number).

(** [new Date(x)] for a Date or a Number. *)
Definition new_Date_of (x : DateOrNumber) : Date :=
  match x with
  | IsDate d => new_Date (Date_valueOf d)
  | IsNumber n => new_Date n
  end.

(** ** The regular expression [/^[\d]{lo,hi}$/] *)

Definition is_decimal_digit (c : ascii) : bool :=
  (48 <=? code c) && (code c <=? 57).

(** A class repeated between [lo] and [hi] times, anchored at both ends
    of the input. *)
Fixpoint test_class_repeat (cls : ascii -> bool) (lo hi : nat) (s : jsstring)
  {struct s} : bool :=
  match s with
  | [] => Nat.eqb lo 0
  | c :: s' =>
      match hi with
      | O => false
      | S hi' => cls c && test_class_repeat cls (Nat.pred lo) hi' s'
      end
  end.

End Js.

Import Js.

(* ================================================================== *)
(** * The class [Snowflake] *)
(* ================================================================== *)

(** The three static fields: the process-wide state of the codec. *)
Record Statics := {
  EPOCH : number;
  SHARD_ID : number;
  SEQUENCE : number
}.

(** The field initialisers; [Date.UTC(1970, 0, 1).valueOf()] is 0. *)
Definition initial_statics : Statics :=
  {| EPOCH := Num 0; SHARD_ID := Num 1; SEQUENCE := Num 1 |}.

(** A method runs on the statics and leaves a completion and the statics
    behind it. *)
Definition M (A : Type) : Type := Statics -> completion A * Statics.

Definition ret {A} (a : A) : M A := fun st => (Normal a, st).

Definition bind {A B} (m : M A) (k : A -> M B) : M B :=
  fun st =>
    match m st with
    | (Normal a, st') => k a st'
    | (Throw e, st') => (Throw e, st')
    end.

Definition lift {A} (c : completion A) : M A := fun st => (c, st).

Definition read {A} (field : Statics -> A) : M A := fun st => (Normal (field st), st).

Definition set_SEQUENCE (n : number) : M unit :=
  fun st => (Normal tt, {| EPOCH := EPOCH st; SHARD_ID := SHARD_ID st; SEQUENCE := n |}).

Declare Scope js_scope.
Delimit Scope js_scope with js.
Notation "'let*' x := m 'in' k" := (bind m (fun x => k))
  (at level 10, x name, m at level 100, k at level 200) : js_scope.

(** [try { body; return true } catch (e) { return false }] *)
Definition try_true_catch_false {A} (body : M A) : M bool :=
  fun st =>
    match body st with
    | (Normal _, st') => (Normal true, st')
    | (Throw _, st') => (Normal false, st')
    end.

Module GenerateOptions.
Record t := {
  timestamp : option DateOrNumber;
  shard_id : option number;
  epoch : option DateOrNumber
}.
End GenerateOptions.

Module DeconstructedSnowflake.
Record t := {
  timestamp : number;
  shard_id : number;
  sequence : number;
  binary : jsstring
}.
End DeconstructedSnowflake.

Module Snowflake.

Local Open Scope js_scope.

Definition cached64BitZeros : jsstring :=
  str "0000000000000000000000000000000000000000000000000000000000000000".

(** [Snowflake.binary]: the base-2 digits, padded on the left to 64
    characters when they are fewer. *)
Definition binary (snowflake : jsstring) : completion jsstring :=
  match BigInt_of_string snowflake with
  | Throw e => Throw e
  | Normal b =>
      let binValue := BigInt_toString 2 b in
      let len := Z.of_nat (List.length binValue) in
      Normal (if len <? 64
              then substring cached64BitZeros (Num 0) (Some (Num (64 - len))) ++ binValue
              else binValue)
  end.

(** [Snowflake.extractBits]: [length ? ... : ...] takes the one-argument
    [substring] when [length] is omitted ([None]) and when it is falsy. *)
Definition extractBits (snowflake : jsstring) (start : number) (length : option number)
  : completion number :=
  match binary snowflake with
  | Throw e => Throw e
  | Normal b =>
      Normal (parseInt
                (match length with
                 | Some l =>
                     if ToBoolean l
                     then substring b start (Some (number_add start l))
                     else substring b start None
                 | None => substring b start None
                 end)
                2)
  end.

(** [Snowflake.generate]; [now] is what [Date.now()] returns. *)
Definition generate (now : number) (options : GenerateOptions.t) : M jsstring :=
  let* default_shard := read SHARD_ID in
  let* default_epoch := read EPOCH in
  let timestamp :=
    match GenerateOptions.timestamp options with Some t => t | None => IsNumber now end in
  let shard_id :=
    match GenerateOptions.shard_id options with Some s => s | None => default_shard end in
  let epoch :=
    match GenerateOptions.epoch options with Some e => e | None => IsNumber default_epoch end in
  let timestamp :=
    match timestamp with
    | IsDate d => Date_valueOf d
    | IsNumber n => Date_valueOf (new_Date n)
    end in
  let epoch :=
    match epoch with
    | IsDate d => Date_valueOf d
    | IsNumber n => Date_valueOf (new_Date n)
    end in
  let* t := lift (BigInt_of_number timestamp) in
  let* e := lift (BigInt_of_number epoch) in
  let result := Z.shiftl (t - e) 22 in
  let* s := lift (BigInt_of_number (number_remainder shard_id (Num 1024))) in
  let result := Z.lor result (Z.shiftl s 12) in
  let* old := read SEQUENCE in
  let* _ := set_SEQUENCE (number_add old (Num 1)) in
  let* q := lift (BigInt_of_number (number_remainder old (Num 4096))) in
  let result := Z.lor result q in
  ret (BigInt_toString 10 result).

(** [Snowflake.parse] *)
Definition parse (snowflake : jsstring) (epoch : option DateOrNumber)
  : M DeconstructedSnowflake.t :=
  let* binary := lift (binary snowflake) in
  let* b := lift (BigInt_of_string snowflake) in
  let* default_epoch := read EPOCH in
  let epoch := match epoch with Some e => e | None => IsNumber default_epoch end in
  let* e := lift (BigInt_of_number (Date_valueOf (new_Date_of epoch))) in
  let timestamp := Number_of_BigInt (Z.shiftr b 22 + e) in
  let* shard_id := lift (extractBits snowflake (Num 42) (Some (Num 10))) in
  let* sequence := lift (extractBits snowflake (Num 52) None) in
  ret {| DeconstructedSnowflake.timestamp := timestamp;
         DeconstructedSnowflake.shard_id := shard_id;
         DeconstructedSnowflake.sequence := sequence;
         DeconstructedSnowflake.binary := binary |}.

(** [Snowflake.isValid] *)
Definition isValid (snowflake : jsstring) : M bool :=
  if negb (test_class_repeat is_decimal_digit 17 22 snowflake) then ret false
  else try_true_catch_false (parse snowflake None).

End Snowflake.

Import Snowflake.

(* ================================================================== *)
(** * Vocabulary of the statements *)
(* ================================================================== *)

(** The characters '0' and '1'. *)
Definition is_binary_digit (c : ascii) : bool := is_char c "01".

(** The [n] low bits of [v], most significant first. *)
Fixpoint bits_msb (n : nat) (v : Z) : jsstring :=
  match n with
  | O => []
  | S k => bits_msb k (v / 2) ++ [digit_char (v mod 2)]
  end.

(** A Date is valid when its time value is not NaN. *)
Definition valid_date (d : Date) : Prop := Date_valueOf d <> NaN.

(** The largest time value, 8.64e15 milliseconds. *)
Definition max_time : Z := 8640000000000000.

(** [{timestamp: t, shard_id: s, epoch: e}] with three integers. *)
Definition options_of (t s e : Z) : GenerateOptions.t :=
  {| GenerateOptions.timestamp := Some (IsNumber (Num t));
     GenerateOptions.shard_id := Some (Num s);
     GenerateOptions.epoch := Some (IsNumber (Num e)) |}.

(** The integer [generate] renders: lines 64 to 66 of the source, on the
    converted operands. *)
Definition encode (delta shard seq : Z) : Z :=
  Z.lor (Z.lor (Z.shiftl delta 22) (Z.shiftl (Z.rem shard 1024) 12)) (Z.rem seq 4096).

(** The pattern of [isValid] in words: 17 to 22 characters, all of them
    ASCII digits. *)
Definition digits_17_22 (s : jsstring) : bool :=
  (17 <=? List.length s)%nat && (List.length s <=? 22)%nat && forallb is_decimal_digit s.

(** The value of a string of binary digits, read in base 2. *)
Definition base2_value (bits : jsstring) : Z :=
  fold_left (fun acc c => 2 * acc + (if Ascii.eqb c "1" then 1 else 0)) bits 0.

(** The characters of [s] at the positions [i], ..., [j - 1]. *)
Definition slice (s : jsstring) (i j : Z) : jsstring :=
  firstn (Z.to_nat (j - i)) (skipn (Z.to_nat i) s).

(** [n] calls of [generate] in a row, with the same arguments. *)
Fixpoint generate_times (n : nat) (now : number) (options : GenerateOptions.t)
  : M (list jsstring) :=
  match n with
  | O => ret []
  | S k =>
      bind (generate now options) (fun id =>
      bind (generate_times k now options) (fun ids =>
      ret (id :: ids)))
  end.

(** A field of the record [parse] returns for an identifier, or nothing
    when [parse] throws. *)
Definition parsed (field : DeconstructedSnowflake.t -> number)
  (epoch : option DateOrNumber) (st : Statics) (id : jsstring) : option number :=
  match fst (parse id epoch st) with
  | Normal r => Some (field r)
  | Throw _ => None
  end.

(** The millisecond value of a timestamp or epoch argument. *)
Definition ms_of (x : DateOrNumber) : number :=
  match x with
  | IsDate d => Date_valueOf d
  | IsNumber n => Date_valueOf (new_Date n)
  end.

(** The three arguments of [generate] after their defaults. *)
Definition timestamp_of (now : number) (options : GenerateOptions.t) : DateOrNumber :=
  match GenerateOptions.timestamp options with Some t => t | None => IsNumber now end.

Definition shard_id_of (options : GenerateOptions.t) (st : Statics) : number :=
  match GenerateOptions.shard_id options with Some s => s | None => SHARD_ID st end.

Definition epoch_of (options : GenerateOptions.t) (st : Statics) : DateOrNumber :=
  match GenerateOptions.epoch options with Some e => e | None => IsNumber (EPOCH st) end.

(* ================================================================== *)
(** * Properties of the runtime *)
(* ================================================================== *)

(** ** Characters *)

(** A boolean property of characters holds of all of them when it holds
    of the 256 code units. *)
Lemma ascii_forall (f : ascii -> bool) :
  forallb (fun n => f (ascii_of_nat n)) (seq 0 256) = true ->
  forall c, f c = true.
Proof.
  intros H c. rewrite forallb_forall in H.
  rewrite <- (ascii_nat_embedding c). apply H.
  apply in_seq. pose proof (nat_ascii_bounded c). lia.
Qed.

Lemma decimal_digit_facts c :
  is_decimal_digit c = true ->
  is_whitespace c = false /\ is_char c "+" = false /\ is_char c "-" = false
  /\ is_char c "xX" = false /\ is_char c "oO" = false /\ is_char c "bB" = false
  /\ radix_digit 10 c <> None.
Proof.
  pose proof (ascii_forall
    (fun c => implb (is_decimal_digit c)
       (negb (is_whitespace c) && negb (is_char c "+") && negb (is_char c "-")
        && negb (is_char c "xX") && negb (is_char c "oO") && negb (is_char c "bB")
        && match radix_digit 10 c with Some _ => true | None => false end))
    eq_refl c) as H.
  cbv beta in H. intros D. rewrite D in H. cbn [implb] in H.
  repeat (apply andb_prop in H; destruct H as [H ?]).
  repeat match goal with X : negb _ = true |- _ => apply negb_true_iff in X end.
  repeat split; try assumption.
  destruct (radix_digit 10 c); congruence.
Qed.

Lemma binary_digit_facts c :
  is_binary_digit c = true ->
  is_whitespace c = false /\ is_char c "+" = false /\ is_char c "-" = false
  /\ radix_digit 2 c = Some (if Ascii.eqb c "1" then 1 else 0).
Proof.
  pose proof (ascii_forall
    (fun c => implb (is_binary_digit c)
       (negb (is_whitespace c) && negb (is_char c "+") && negb (is_char c "-")
        && match radix_digit 2 c with
           | Some d => d =? (if Ascii.eqb c "1" then 1 else 0)
           | None => false
           end))
    eq_refl c) as H.
  cbv beta in H. intros D. rewrite D in H. cbn [implb] in H.
  repeat (apply andb_prop in H; destruct H as [H ?]).
  repeat match goal with X : negb _ = true |- _ => apply negb_true_iff in X end.
  repeat split; try assumption.
  destruct (radix_digit 2 c); [|discriminate].
  f_equal. lia.
Qed.

Lemma digit_char_value d :
  0 <= d < 36 -> digit_value (digit_char d) = Some d.
Proof.
  intros H.
  assert (forallb (fun n => match digit_value (digit_char (Z.of_nat n)) with
                            | Some v => v =? Z.of_nat n
                            | None => false
                            end) (seq 0 36) = true) as A by reflexivity.
  rewrite forallb_forall in A.
  specialize (A (Z.to_nat d)). rewrite Z2Nat.id in A by lia.
  destruct (digit_value (digit_char d)).
  - f_equal. apply Z.eqb_eq. apply A. apply in_seq. lia.
  - discriminate A. apply in_seq. lia.
Qed.

Lemma digit_char_radix radix d :
  radix <= 36 -> 0 <= d < radix -> radix_digit radix (digit_char d) = Some d.
Proof.
  intros R H. unfold radix_digit. rewrite digit_char_value by lia.
  destruct (Z.ltb_spec d radix); [reflexivity | lia].
Qed.

Lemma digit_char_decimal d :
  0 <= d < 10 -> is_decimal_digit (digit_char d) = true.
Proof.
  intros H.
  assert (forallb (fun n => is_decimal_digit (digit_char (Z.of_nat n))) (seq 0 10) = true)
    as A by reflexivity.
  rewrite forallb_forall in A.
  specialize (A (Z.to_nat d)). rewrite Z2Nat.id in A by lia.
  apply A. apply in_seq. lia.
Qed.

Lemma digit_char_binary d :
  0 <= d < 2 -> is_binary_digit (digit_char d) = true.
Proof.
  intros H. assert (d = 0 \/ d = 1) as [-> | ->] by lia; reflexivity.
Qed.

(** ** Printing and reading digits *)

Lemma digits_value_app radix s1 : forall acc s2,
  digits_value radix acc (s1 ++ s2) =
  match digits_value radix acc s1 with
  | Some a => digits_value radix a s2
  | None => None
  end.
Proof.
  induction s1 as [|c s1 IH]; intros acc s2; simpl; [reflexivity|].
  destruct (radix_digit radix c); auto.
Qed.

Section Digits.

Variable radix : Z.
Hypothesis radix_lo : 2 <= radix.
Hypothesis radix_hi : radix <= 36.

(** Reading back what [digits_of] printed in front of [acc] is reading
    [acc] from the number printed: the fuel [BigInt_toString] gives is
    enough. *)
Lemma digits_of_value fuel : forall n acc,
  0 <= n < 2 ^ Z.of_nat fuel ->
  digits_value radix 0 (digits_of radix fuel n acc) = digits_value radix n acc.
Proof.
  induction fuel as [|fuel IH]; intros n acc H.
  - simpl in H. assert (n = 0) by lia. subst n. reflexivity.
  - cbn [digits_of]. destruct (Z.ltb_spec n radix) as [L | L].
    + cbn [digits_value]. rewrite Z.mod_small by lia.
      rewrite digit_char_radix by lia. reflexivity.
    + rewrite IH.
      * cbn [digits_value].
        rewrite digit_char_radix by (try apply Z.mod_pos_bound; lia).
        f_equal. rewrite (Z.div_mod n radix) at 3 by lia. lia.
      * split; [apply Z.div_pos; lia|].
        apply Z.div_lt_upper_bound; [lia|].
        rewrite Nat2Z.inj_succ, Z.pow_succ_r in H by lia.
        assert (0 < 2 ^ Z.of_nat fuel) by (apply Z.pow_pos_nonneg; lia). nia.
Qed.

Lemma digits_of_Forall (P : ascii -> Prop) :
  (forall d, 0 <= d < radix -> P (digit_char d)) ->
  forall fuel n acc, Forall P acc -> Forall P (digits_of radix fuel n acc).
Proof.
  intros HP. induction fuel as [|fuel IH]; intros n acc HA; [exact HA|].
  assert (P (digit_char (n mod radix))) by (apply HP, Z.mod_pos_bound; lia).
  cbn [digits_of]. destruct (n <? radix); [|apply IH]; constructor; assumption.
Qed.

Lemma digits_of_length fuel : forall n acc,
  (List.length acc <= List.length (digits_of radix fuel n acc))%nat.
Proof.
  induction fuel as [|fuel IH]; intros n acc; [apply Nat.le_refl|].
  cbn [digits_of]. destruct (n <? radix); [simpl; lia|].
  etransitivity; [|apply IH]. simpl. lia.
Qed.

Lemma digits_of_nonempty fuel n acc :
  (List.length acc < List.length (digits_of radix (S fuel) n acc))%nat.
Proof.
  cbn [digits_of]. destruct (n <? radix); [simpl; lia|].
  eapply Nat.lt_le_trans; [|apply digits_of_length]. simpl. lia.
Qed.

End Digits.

Lemma toString_fuel a :
  0 <= a -> 0 <= a < 2 ^ Z.of_nat (S (Z.to_nat (Z.log2 a))).
Proof.
  intros H. split; [assumption|].
  rewrite Nat2Z.inj_succ, Z2Nat.id by apply Z.log2_nonneg.
  destruct (Z.eq_dec a 0) as [-> | N]; [reflexivity|].
  apply Z.log2_spec. lia.
Qed.

Lemma trim_start_head c s : is_whitespace c = false -> trim_start (c :: s) = c :: s.
Proof. intros H. simpl. rewrite H. reflexivity. Qed.

Lemma trim_no_whitespace s :
  Forall (fun c => is_whitespace c = false) s -> trim s = s.
Proof.
  intros H. unfold trim.
  assert (forall t, Forall (fun c => is_whitespace c = false) t -> trim_start t = t) as T.
  { intros [|c t] F; [reflexivity|]. inversion F; subst. apply trim_start_head; assumption. }
  rewrite (T s H), T by (apply Forall_rev; exact H).
  apply rev_involutive.
Qed.

(** A string of decimal digits is read by [BigInt] as the decimal number
    it spells. *)
Lemma StringToBigInt_decimal s :
  s <> [] -> Forall (fun c => is_decimal_digit c = true) s ->
  StringToBigInt s = digits_value 10 0 s /\ digits_value 10 0 s <> None.
Proof.
  intros NE F. split.
  - unfold StringToBigInt. rewrite trim_no_whitespace.
    + destruct s as [|c rest]; [congruence|].
      inversion F as [|? ? Hc Hrest]; subst.
      destruct (decimal_digit_facts c Hc) as (_ & -> & -> & _).
      destruct rest as [|p ds]; [reflexivity|].
      inversion Hrest as [|? ? Hp _]; subst.
      destruct (decimal_digit_facts p Hp) as (_ & _ & _ & -> & -> & -> & _).
      rewrite !andb_false_r. reflexivity.
    + eapply Forall_impl; [|exact F]. intros c Hc. apply (decimal_digit_facts c Hc).
  - clear NE. generalize 0. induction F as [|c s Hc F IH]; intros acc; simpl; [discriminate|].
    destruct (decimal_digit_facts c Hc) as (_ & _ & _ & _ & _ & _ & D).
    destruct (radix_digit 10 c); [apply IH | congruence].
Qed.

(** [BigInt(b.toString())] is [b]. *)
Lemma BigInt_toString_roundtrip b :
  BigInt_of_string (BigInt_toString 10 b) = Normal b.
Proof.
  unfold BigInt_of_string, BigInt_toString.
  set (a := Z.abs b). set (fuel := S (Z.to_nat (Z.log2 a))).
  assert (0 <= a) as Ha by apply Z.abs_nonneg.
  assert (Forall (fun c => is_decimal_digit c = true) (digits_of 10 fuel a [])) as F.
  { apply digits_of_Forall; [lia | apply digit_char_decimal | constructor]. }
  assert (digits_of 10 fuel a [] <> []) as NE.
  { pose proof (digits_of_nonempty 10 (Z.to_nat (Z.log2 a)) a []) as L.
    fold fuel in L. intros E. rewrite E in L. simpl in L. lia. }
  assert (digits_value 10 0 (digits_of 10 fuel a []) = Some a) as V.
  { rewrite digits_of_value by (try apply toString_fuel; lia). reflexivity. }
  destruct (Z.ltb_spec b 0) as [L | L].
  - unfold StringToBigInt. rewrite trim_no_whitespace.
    + cbn [is_char existsb list_ascii_of_string orb Ascii.eqb Bool.eqb andb].
      unfold nonempty_digits_value. destruct (digits_of 10 fuel a []); [congruence|].
      rewrite V. simpl. f_equal. lia.
    + constructor; [reflexivity|].
      eapply Forall_impl; [|exact F]. intros c Hc. apply (decimal_digit_facts c Hc).
  - destruct (StringToBigInt_decimal _ NE F) as [-> _]. rewrite V. f_equal. lia.
Qed.

(** ** Fixed-width binary strings *)

Lemma bits_msb_length n : forall v, List.length (bits_msb n v) = n.
Proof.
  induction n as [|n IH]; intros v; simpl; [reflexivity|].
  rewrite length_app, IH. simpl. lia.
Qed.

Lemma bits_msb_zero n : bits_msb n 0 = repeat "0"%char n.
Proof.
  induction n as [|n IH]; [reflexivity|].
  cbn [bits_msb]. rewrite Z.div_0_l, IH by lia.
  change (digit_char (0 mod 2)) with "0"%char.
  change ["0"%char] with (repeat "0"%char 1). rewrite <- repeat_app.
  f_equal. lia.
Qed.

Lemma bits_msb_binary n : forall v,
  Forall (fun c => is_binary_digit c = true) (bits_msb n v).
Proof.
  induction n as [|n IH]; intros v; simpl; [constructor|].
  apply Forall_app. split; [apply IH|].
  constructor; [|constructor]. apply digit_char_binary, Z.mod_pos_bound. lia.
Qed.

(** The high [p] bits, then the low [m] bits. *)
Lemma bits_msb_split p m : forall v,
  bits_msb (p + m) v = bits_msb p (v / 2 ^ Z.of_nat m) ++ bits_msb m v.
Proof.
  induction m as [|m IH]; intros v.
  - rewrite Nat.add_0_r, Z.div_1_r, app_nil_r. reflexivity.
  - rewrite Nat.add_succ_r. cbn [bits_msb]. rewrite IH, app_assoc.
    rewrite Z.div_div by (try apply Z.pow_pos_nonneg; lia).
    rewrite Nat2Z.inj_succ, Z.pow_succ_r by lia. reflexivity.
Qed.

Lemma bits_msb_value n : forall v acc,
  digits_value 2 acc (bits_msb n v) = Some (acc * 2 ^ Z.of_nat n + v mod 2 ^ Z.of_nat n).
Proof.
  induction n as [|n IH]; intros v acc.
  - simpl. rewrite Z.mod_1_r. f_equal. lia.
  - cbn [bits_msb]. rewrite digits_value_app, IH. cbn [digits_value].
    rewrite digit_char_radix by (try apply Z.mod_pos_bound; lia).
    f_equal. rewrite Nat2Z.inj_succ, Z.pow_succ_r by lia.
    rewrite (Z.rem_mul_r v 2 (2 ^ Z.of_nat n)) by (try apply Z.pow_pos_nonneg; lia).
    lia.
Qed.

(** The digits [toString(2)] prints, padded with zeros on the left, are
    the [n] low bits. *)
Lemma digits_of_bits fuel : forall v acc n,
  0 <= v < 2 ^ Z.of_nat fuel -> v < 2 ^ Z.of_nat n -> (1 <= fuel)%nat -> (1 <= n)%nat ->
  exists pad,
    bits_msb n v ++ acc = repeat "0"%char pad ++ digits_of 2 fuel v acc
    /\ (pad + List.length (digits_of 2 fuel v acc) = n + List.length acc)%nat.
Proof.
  induction fuel as [|fuel IH]; intros v acc n Hf Hn F N; [lia|].
  destruct n as [|n]; [lia|].
  cbn [digits_of bits_msb]. destruct (Z.ltb_spec v 2) as [L | L].
  - exists n. rewrite Z.div_small, bits_msb_zero, <- app_assoc by lia.
    split; [reflexivity | simpl; lia].
  - rewrite Nat2Z.inj_succ, Z.pow_succ_r in Hf, Hn by lia.
    assert (1 <= fuel)%nat as F'.
    { destruct fuel; [simpl in Hf; lia | lia]. }
    assert (1 <= n)%nat as N'.
    { destruct n; [simpl in Hn; lia | lia]. }
    destruct (IH (v / 2) (digit_char (v mod 2) :: acc) n) as (pad & E & Len);
      try assumption.
    + split; [apply Z.div_pos; lia | apply Z.div_lt_upper_bound; lia].
    + apply Z.div_lt_upper_bound; lia.
    + exists pad. rewrite <- app_assoc. split; [exact E | simpl in Len; simpl; lia].
Qed.

Lemma toString2_bits v n :
  0 <= v < 2 ^ Z.of_nat n -> (1 <= n)%nat ->
  (List.length (BigInt_toString 2 v) <= n)%nat
  /\ repeat "0"%char (n - List.length (BigInt_toString 2 v)) ++ BigInt_toString 2 v
     = bits_msb n v.
Proof.
  intros H N. unfold BigInt_toString.
  destruct (Z.ltb_spec v 0) as [L | _]; [lia|].
  rewrite Z.abs_eq by lia.
  destruct (digits_of_bits (S (Z.to_nat (Z.log2 v))) v [] n) as (pad & E & Len);
    try (apply toString_fuel); try lia.
  rewrite app_nil_r in E. cbn [List.length] in Len. split; [lia|].
  rewrite E. f_equal. f_equal. lia.
Qed.

Lemma bits_msb_slice n a b v :
  (a <= b)%nat -> (b <= n)%nat ->
  firstn (b - a) (skipn a (bits_msb n v)) = bits_msb (b - a) (v / 2 ^ Z.of_nat (n - b)).
Proof.
  intros Hab Hbn.
  replace n with (a + ((b - a) + (n - b)))%nat at 1 by lia.
  rewrite bits_msb_split, bits_msb_split.
  rewrite skipn_app, skipn_all2 by (rewrite bits_msb_length; lia).
  rewrite bits_msb_length, Nat.sub_diag, app_nil_l. cbn [skipn].
  rewrite firstn_app, bits_msb_length, Nat.sub_diag. cbn [firstn].
  rewrite app_nil_r. apply firstn_all2. rewrite bits_msb_length. lia.
Qed.

(** ** Rounding to a double *)

Lemma Number_of_Z_exact z : Z.abs z < 2 ^ 53 -> Number_of_Z z = Num z.
Proof.
  intros H. unfold Number_of_Z, round_to_double.
  destruct (Z.ltb_spec (Z.abs z) (2 ^ 53)) as [_ | L]; [|lia].
  destruct (Z.leb_spec (2 ^ 1024) (Z.abs z)) as [L | _]; [lia | reflexivity].
Qed.

Lemma round_to_double_lower z :
  0 <= z -> Z.min z (2 ^ 52) <= round_to_double z.
Proof.
  intros H. unfold round_to_double. rewrite Z.abs_eq by lia.
  destruct (Z.ltb_spec z (2 ^ 53)) as [L | L]; [lia|].
  set (e := Z.log2 z - 52). set (q := z / 2 ^ e).
  assert (52 < Z.log2 z) as E.
  { pose proof (Z.log2_le_mono _ _ L) as M.
    rewrite Z.log2_pow2 in M by lia. lia. }
  assert (0 < 2 ^ e) as Pe by (apply Z.pow_pos_nonneg; lia).
  assert (2 ^ 52 <= q) as Q.
  { apply Z.div_le_lower_bound; [assumption|].
    rewrite <- Z.pow_add_r by lia. replace (e + 52) with (Z.log2 z) by lia.
    apply Z.log2_spec. lia. }
  rewrite Z.sgn_pos by lia.
  assert (forall q', q <= q' -> Z.min z (2 ^ 52) <= 1 * (q' * 2 ^ e)) as G by (intros; nia).
  destruct (z mod 2 ^ e <? 2 ^ (e - 1)); [apply G; lia|].
  destruct (2 ^ (e - 1) <? z mod 2 ^ e); [apply G; lia|].
  destruct (Z.even q); apply G; lia.
Qed.

(** An end index at or beyond the length of the string is the length,
    also after rounding. *)
Lemma clamp_index_beyond z len :
  0 <= len <= 2 ^ 52 -> len <= z -> clamp_index (Number_of_Z z) len = len.
Proof.
  intros L H. unfold Number_of_Z.
  destruct (2 ^ 1024 <=? Z.abs (round_to_double z)).
  - destruct (Z.ltb_spec z 0); [lia | reflexivity].
  - pose proof (round_to_double_lower z). unfold clamp_index. lia.
Qed.

(** ** substring *)

Lemma clamp_index_range n len : 0 <= len -> 0 <= clamp_index n len <= len.
Proof. intros H. destruct n as [z | | []]; simpl; lia. Qed.

Lemma substring_to s a e :
  0 <= a <= clamp_index e (Z.of_nat (List.length s)) ->
  substring s (Num a) (Some e)
  = firstn (Z.to_nat (clamp_index e (Z.of_nat (List.length s))) - Z.to_nat a)
      (skipn (Z.to_nat a) s).
Proof.
  intros H. unfold substring.
  pose proof (clamp_index_range e (Z.of_nat (List.length s)) ltac:(lia)) as R.
  set (b := clamp_index e (Z.of_nat (List.length s))) in *.
  assert (clamp_index (Num a) (Z.of_nat (List.length s)) = a) as -> by (simpl; lia).
  rewrite Z.min_l, Z.max_r by lia. f_equal. lia.
Qed.

Lemma substring_from s a :
  0 <= a <= Z.of_nat (List.length s) ->
  substring s (Num a) None = skipn (Z.to_nat a) s.
Proof.
  intros H. unfold substring.
  assert (clamp_index (Num a) (Z.of_nat (List.length s)) = a) as -> by (simpl; lia).
  rewrite Z.min_l, Z.max_r by lia.
  apply firstn_all2. rewrite length_skipn. lia.
Qed.

(** ** parseInt in radix 2 *)

Lemma take_digits_all radix s :
  Forall (fun c => radix_digit radix c <> None) s -> take_digits radix s = s.
Proof.
  induction 1 as [|c s Hc _ IH]; simpl; [reflexivity|].
  destruct (radix_digit radix c); [rewrite IH; reflexivity | congruence].
Qed.

Lemma parseInt_binary_digits s v :
  s <> [] -> Forall (fun c => is_binary_digit c = true) s ->
  digits_value 2 0 s = Some v ->
  parseInt s 2 = Number_of_Z v.
Proof.
  intros NE F V. destruct s as [|c s]; [congruence|].
  assert (take_digits 2 (c :: s) = c :: s) as T.
  { apply take_digits_all. eapply Forall_impl; [|exact F].
    intros x Hx. destruct (binary_digit_facts x Hx) as (_ & _ & _ & ->). discriminate. }
  inversion F as [|? ? Hc _]; subst.
  destruct (binary_digit_facts c Hc) as (W & P & Mi & _).
  unfold parseInt. rewrite trim_start_head by exact W. rewrite Mi, P.
  change ((2 =? 0) || (2 <=? 2) && (2 <=? 36)) with true.
  change ((2 =? 0) || (2 =? 16)) with false.
  change (2 =? 0) with false. cbv iota beta. cbn [andb].
  rewrite T, V. f_equal. lia.
Qed.

(* ================================================================== *)
(** * Properties of the codec *)
(* ================================================================== *)

(** ** The pattern *)

Lemma test_class_repeat_spec cls s : forall lo hi,
  test_class_repeat cls lo hi s
  = (lo <=? List.length s)%nat && (List.length s <=? hi)%nat && forallb cls s.
Proof.
  induction s as [|c s IH]; intros lo hi.
  - simpl. destruct lo; reflexivity.
  - cbn [test_class_repeat List.length forallb]. destruct hi as [|hi].
    + rewrite andb_false_r. reflexivity.
    + rewrite IH. destruct lo as [|lo]; cbn [Nat.pred Nat.leb];
        destruct (cls c); cbn [andb]; rewrite ?andb_false_r; reflexivity.
Qed.

Lemma isValid_pattern s :
  test_class_repeat is_decimal_digit 17 22 s = digits_17_22 s.
Proof. apply test_class_repeat_spec. Qed.

(** ** [binary] *)

Lemma cached64BitZeros_prefix k :
  (k <= 64)%nat ->
  substring cached64BitZeros (Num 0) (Some (Num (Z.of_nat k))) = repeat "0"%char k.
Proof.
  intros H. rewrite substring_to.
  - change (List.length cached64BitZeros) with 64%nat.
    assert (clamp_index (Num (Z.of_nat k)) (Z.of_nat 64) = Z.of_nat k) as -> by (simpl; lia).
    change (Z.to_nat 0) with 0%nat. cbn [skipn]. rewrite Nat.sub_0_r, Nat2Z.id.
    change cached64BitZeros with (repeat "0"%char 64).
    replace 64%nat with (k + (64 - k))%nat at 1 by lia.
    rewrite repeat_app, firstn_app, repeat_length, Nat.sub_diag. cbn [firstn].
    rewrite app_nil_r. apply firstn_all2. rewrite repeat_length. lia.
  - change (List.length cached64BitZeros) with 64%nat. simpl. lia.
Qed.

(** Up to 64 digits are padded to exactly 64 characters. *)
Lemma binary_padded x b :
  BigInt_of_string x = Normal b ->
  (List.length (BigInt_toString 2 b) <= 64)%nat ->
  binary x
  = Normal (repeat "0"%char (64 - List.length (BigInt_toString 2 b)) ++ BigInt_toString 2 b).
Proof.
  intros Hb L. unfold binary. rewrite Hb. f_equal.
  destruct (Z.ltb_spec (Z.of_nat (List.length (BigInt_toString 2 b))) 64) as [S | S].
  - replace (64 - Z.of_nat (List.length (BigInt_toString 2 b)))
      with (Z.of_nat (64 - List.length (BigInt_toString 2 b))) by lia.
    rewrite cached64BitZeros_prefix by lia. reflexivity.
  - replace (64 - List.length (BigInt_toString 2 b))%nat with 0%nat by lia. reflexivity.
Qed.

(** The binary string of a value below 2^64 is its 64 bits. *)
Lemma binary_bits x b :
  BigInt_of_string x = Normal b -> 0 <= b < 2 ^ 64 ->
  binary x = Normal (bits_msb 64 b).
Proof.
  intros Hb R. destruct (toString2_bits b 64) as [L E]; [exact R | lia |].
  rewrite (binary_padded x b Hb L), E. reflexivity.
Qed.

(** ** The packed integer *)

Lemma lor_shiftl_add a b n :
  0 <= n -> 0 <= b < 2 ^ n -> Z.lor (Z.shiftl a n) b = a * 2 ^ n + b.
Proof.
  intros Hn Hb.
  assert (Z.land (Z.shiftl a n) b = 0) as D.
  { apply Z.bits_inj'. intros i Hi. rewrite Z.land_spec, Z.bits_0.
    destruct (Z.lt_ge_cases i n) as [L | L].
    - rewrite Z.shiftl_spec_low by assumption. reflexivity.
    - rewrite <- (Z.mod_small b (2 ^ n)) by assumption.
      rewrite Z.mod_pow2_bits_high by lia. apply andb_false_r. }
  rewrite <- Z.lxor_lor, <- Z.add_nocarry_lxor by assumption.
  rewrite Z.shiftl_mul_pow2 by assumption. reflexivity.
Qed.

(** With the fields in range, the three fields sit side by side. *)
Lemma encode_sum d s q :
  0 <= s < 1024 -> 0 <= q < 4096 ->
  encode d s q = d * 2 ^ 22 + s * 2 ^ 12 + q.
Proof.
  intros Hs Hq. unfold encode.
  rewrite !Z.rem_small by lia.
  replace (Z.shiftl d 22) with (Z.shiftl (Z.shiftl d 10) 12)
    by (rewrite Z.shiftl_shiftl by lia; reflexivity).
  rewrite <- Z.shiftl_lor.
  rewrite (lor_shiftl_add d s 10) by lia.
  rewrite lor_shiftl_add by lia. lia.
Qed.

Lemma encode_fields d s q :
  0 <= d < 2 ^ 42 -> 0 <= s < 1024 -> 0 <= q < 4096 ->
  0 <= encode d s q < 2 ^ 64
  /\ Z.shiftr (encode d s q) 22 = d
  /\ (encode d s q / 2 ^ 12) mod 2 ^ 10 = s
  /\ encode d s q mod 2 ^ 12 = q.
Proof.
  intros Hd Hs Hq. rewrite encode_sum, Z.shiftr_div_pow2 by lia.
  change (2 ^ 22) with 4194304 in *. change (2 ^ 12) with 4096 in *.
  change (2 ^ 10) with 1024 in *. change (2 ^ 42) with 4398046511104 in *.
  change (2 ^ 64) with 18446744073709551616 in *.
  repeat split; try lia.
  - symmetry. apply Z.div_unique with (s * 4096 + q); lia.
  - replace ((d * 4194304 + s * 4096 + q) / 4096) with (d * 1024 + s)
      by (apply Z.div_unique with q; lia).
    symmetry. apply Z.mod_unique with d; lia.
  - symmetry. apply Z.mod_unique with (d * 1024 + s); lia.
Qed.

(** ** [generate] on three integers *)

Lemma TimeClip_in_range z : Z.abs z <= max_time -> TimeClip (Num z) = Num z.
Proof.
  intros H. unfold TimeClip, max_time in *.
  destruct (Z.leb_spec (Z.abs z) 8640000000000000); [reflexivity | lia].
Qed.

Lemma generate_integers now t s e q st :
  Z.abs t <= max_time -> Z.abs e <= max_time -> SEQUENCE st = Num q ->
  generate now (options_of t s e) st
  = (Normal (BigInt_toString 10 (encode (t - e) s q)),
     {| EPOCH := EPOCH st; SHARD_ID := SHARD_ID st; SEQUENCE := Number_of_Z (q + 1) |}).
Proof.
  intros Ht He Hq.
  unfold generate, options_of, bind, read, lift, ret, set_SEQUENCE.
  cbn [GenerateOptions.timestamp GenerateOptions.shard_id GenerateOptions.epoch
       Date_valueOf].
  rewrite !TimeClip_in_range by assumption. rewrite Hq.
  cbn [BigInt_of_number number_remainder number_add EPOCH SHARD_ID SEQUENCE].
  change (1024 =? 0) with false. change (4096 =? 0) with false.
  cbn [BigInt_of_number]. reflexivity.
Qed.

(** ** [extractBits] and [parse] on a value below 2^64 *)

Lemma parseInt_bits m w :
  (1 <= m)%nat -> parseInt (bits_msb m w) 2 = Number_of_Z (w mod 2 ^ Z.of_nat m).
Proof.
  intros M. apply parseInt_binary_digits.
  - intros E. apply (f_equal (@List.length ascii)) in E.
    rewrite bits_msb_length in E. simpl in E. lia.
  - apply bits_msb_binary.
  - rewrite bits_msb_value. f_equal.
Qed.

Lemma extractBits_bits x b start length :
  BigInt_of_string x = Normal b -> 0 <= b < 2 ^ 64 ->
  0 <= start -> 0 < length -> start + length <= 64 ->
  extractBits x (Num start) (Some (Num length))
  = Normal (Number_of_Z ((b / 2 ^ (64 - (start + length))) mod 2 ^ length)).
Proof.
  intros Hb R Hs Hl He. unfold extractBits. rewrite (binary_bits x b Hb R).
  assert (ToBoolean (Num length) = true) as ->.
  { simpl. destruct (Z.eqb_spec length 0); [lia | reflexivity]. }
  assert (number_add (Num start) (Num length) = Num (start + length)) as ->.
  { apply Number_of_Z_exact. lia. }
  rewrite substring_to; rewrite bits_msb_length; cbn [clamp_index]; [|lia].
  replace (Z.to_nat (Z.min (Z.max (start + length) 0) (Z.of_nat 64)))
    with (Z.to_nat (start + length)) by lia.
  rewrite bits_msb_slice by lia.
  rewrite parseInt_bits by lia.
  replace (Z.of_nat (64 - Z.to_nat (start + length))) with (64 - (start + length)) by lia.
  replace (Z.of_nat (Z.to_nat (start + length) - Z.to_nat start)) with length by lia.
  reflexivity.
Qed.

Lemma extractBits_bits_to_end x b start :
  BigInt_of_string x = Normal b -> 0 <= b < 2 ^ 64 ->
  0 <= start < 64 ->
  extractBits x (Num start) None = Normal (Number_of_Z (b mod 2 ^ (64 - start))).
Proof.
  intros Hb R Hs. unfold extractBits. rewrite (binary_bits x b Hb R).
  rewrite substring_from by (rewrite bits_msb_length; lia).
  rewrite <- (firstn_all2 (n := 64 - Z.to_nat start) (skipn _ _))
    by (rewrite length_skipn, bits_msb_length; lia).
  rewrite bits_msb_slice by lia.
  rewrite parseInt_bits by lia.
  rewrite Nat.sub_diag, Z.div_1_r.
  replace (Z.of_nat (64 - Z.to_nat start)) with (64 - start) by lia.
  reflexivity.
Qed.

(** What [parse] reads from a string whose value is below 2^64, given an
    epoch that is a valid date. *)
Lemma parse_fields x b epoch e st :
  BigInt_of_string x = Normal b -> 0 <= b < 2 ^ 64 ->
  Date_valueOf
    (new_Date_of (match epoch with Some d => d | None => IsNumber (EPOCH st) end)) = Num e ->
  parse x epoch st
  = (Normal {| DeconstructedSnowflake.timestamp := Number_of_BigInt (Z.shiftr b 22 + e);
               DeconstructedSnowflake.shard_id := Number_of_Z ((b / 2 ^ 12) mod 2 ^ 10);
               DeconstructedSnowflake.sequence := Number_of_Z (b mod 2 ^ 12);
               DeconstructedSnowflake.binary := bits_msb 64 b |}, st).
Proof.
  intros Hb R He. unfold parse, bind, read, lift, ret.
  rewrite (binary_bits x b Hb R), Hb, He. cbn [BigInt_of_number].
  rewrite (extractBits_bits x b 42 10 Hb R) by lia.
  rewrite (extractBits_bits_to_end x b 52 Hb R) by lia.
  reflexivity.
Qed.

(** ** [parse], [isValid] and [generate] as functions of the statics *)

(** [parse] never changes the statics. *)
Lemma parse_frame snowflake epoch st : snd (parse snowflake epoch st) = st.
Proof.
  unfold parse, bind, read, lift, ret.
  repeat match goal with
         | |- context [match ?c with Normal _ => _ | Throw _ => _ end] =>
             destruct c; cbn [fst snd]
         end; reflexivity.
Qed.

Lemma isValid_unfold snowflake st :
  isValid snowflake st
  = (Normal (digits_17_22 snowflake && returns (fst (parse snowflake None st))), st).
Proof.
  unfold isValid. rewrite isValid_pattern.
  destruct (digits_17_22 snowflake); [|reflexivity].
  cbn [negb andb]. unfold try_true_catch_false.
  pose proof (parse_frame snowflake None st) as F.
  destruct (parse snowflake None st) as [[r | e] st']; cbn [fst snd returns] in *;
    subst st'; reflexivity.
Qed.

Lemma Date_valueOf_cases d :
  Date_valueOf d = NaN \/ exists z, Date_valueOf d = Num z.
Proof.
  destruct d as [[z | | neg]]; cbn; auto.
  destruct (Z.abs z <=? 8640000000000000); eauto.
Qed.

Lemma binary_returns x b :
  BigInt_of_string x = Normal b -> exists B, binary x = Normal B.
Proof. intros H. unfold binary. rewrite H. eauto. Qed.

Lemma extractBits_returns x b start length :
  BigInt_of_string x = Normal b -> exists n, extractBits x start length = Normal n.
Proof.
  intros H. unfold extractBits. destruct (binary_returns x b H) as [B ->]. eauto.
Qed.

(** With a valid date for the epoch, [parse] returns a record for every
    string that [BigInt] converts. *)
Lemma parse_returns snowflake epoch st b :
  valid_date (new_Date_of (match epoch with Some d => d | None => IsNumber (EPOCH st) end)) ->
  BigInt_of_string snowflake = Normal b ->
  exists r, parse snowflake epoch st = (Normal r, st).
Proof.
  intros V Hb. unfold valid_date in V. unfold parse, bind, read, lift, ret.
  destruct (binary_returns snowflake b Hb) as [B ->]. rewrite Hb.
  destruct (Date_valueOf_cases
              (new_Date_of (match epoch with Some d => d | None => IsNumber (EPOCH st) end)))
    as [N | [e ->]]; [congruence|].
  cbn [BigInt_of_number].
  destruct (extractBits_returns snowflake b (Num 42) (Some (Num 10)) Hb) as [s ->].
  destruct (extractBits_returns snowflake b (Num 52) None Hb) as [q ->].
  eauto.
Qed.

(** The error of [BigInt] is the error of [parse]. *)
Lemma parse_propagates snowflake epoch st e :
  BigInt_of_string snowflake = Throw e -> parse snowflake epoch st = (Throw e, st).
Proof.
  intros Hb. unfold parse, bind, lift, binary. rewrite Hb. reflexivity.
Qed.

Lemma digits_17_22_decimal s :
  digits_17_22 s = true ->
  s <> [] /\ Forall (fun c => is_decimal_digit c = true) s.
Proof.
  unfold digits_17_22. intros H.
  apply andb_prop in H. destruct H as [H F].
  apply andb_prop in H. destruct H as [L _].
  split.
  - intros ->. discriminate L.
  - apply Forall_forall. apply forallb_forall. exact F.
Qed.

Lemma digits_value_base2 s :
  Forall (fun c => is_binary_digit c = true) s ->
  forall acc,
    digits_value 2 acc s
    = Some (fold_left (fun a c => 2 * a + (if Ascii.eqb c "1" then 1 else 0)) s acc).
Proof.
  induction 1 as [|c s Hc _ IH]; intros acc; [reflexivity|].
  cbn [digits_value fold_left].
  destruct (binary_digit_facts c Hc) as (_ & _ & _ & ->).
  rewrite IH. do 2 f_equal. lia.
Qed.

Lemma base2_value_bits m w : base2_value (bits_msb m w) = w mod 2 ^ Z.of_nat m.
Proof.
  pose proof (digits_value_base2 _ (bits_msb_binary m w) 0) as E.
  rewrite bits_msb_value in E. unfold base2_value.
  assert (forall x y : Z, Some x = Some y -> x = y) as Inj by (intros x y [=]; assumption).
  apply Inj. rewrite <- E. f_equal.
Qed.

(** A slice of the 64 bits that starts inside them. *)
Lemma slice_bits b i j :
  0 <= i < 64 -> i < j ->
  slice (bits_msb 64 b) i j
  = bits_msb (Z.to_nat (Z.min j 64) - Z.to_nat i)
      (b / 2 ^ Z.of_nat (64 - Z.to_nat (Z.min j 64))).
Proof.
  intros Hi Hj. unfold slice. rewrite <- bits_msb_slice by lia.
  destruct (Z.le_gt_cases j 64) as [L | L].
  - f_equal. lia.
  - rewrite !firstn_all2; [reflexivity | |]; rewrite length_skipn, bits_msb_length; lia.
Qed.

(** The two-argument [substring] of [extractBits] is that slice, also
    when the sum [start + length] is rounded. *)
Lemma substring_bits b start length :
  0 <= start < 64 -> 1 <= length ->
  substring (bits_msb 64 b) (Num start) (Some (number_add (Num start) (Num length)))
  = slice (bits_msb 64 b) start (start + length).
Proof.
  intros Hs Hl. cbn [number_add].
  assert (clamp_index (Number_of_Z (start + length)) 64 = Z.min (start + length) 64) as C.
  { destruct (Z.le_gt_cases (start + length) 64) as [L | L].
    - rewrite Number_of_Z_exact by lia. simpl. lia.
    - rewrite clamp_index_beyond by lia. lia. }
  rewrite substring_to; rewrite bits_msb_length; change (Z.of_nat 64) with 64;
    rewrite C; [|lia].
  rewrite slice_bits by lia. apply bits_msb_slice; lia.
Qed.

(** Adding one to an integer counter of at most 53 bits is exact. *)
Lemma Number_of_Z_succ q :
  - 2 ^ 53 <= q < 2 ^ 53 -> Number_of_Z (q + 1) = Num (q + 1).
Proof.
  intros H. destruct (Z.eq_dec (q + 1) (2 ^ 53)) as [E | N].
  - rewrite E. reflexivity.
  - apply Number_of_Z_exact. lia.
Qed.

Lemma generate_cases now options st :
  let st' := {| EPOCH := EPOCH st; SHARD_ID := SHARD_ID st;
                SEQUENCE := number_add (SEQUENCE st) (Num 1) |} in
  (exists t e s q,
     ms_of (timestamp_of now options) = Num t
     /\ ms_of (epoch_of options st) = Num e
     /\ number_remainder (shard_id_of options st) (Num 1024) = Num s
     /\ number_remainder (SEQUENCE st) (Num 4096) = Num q
     /\ generate now options st
        = (Normal (BigInt_toString 10 (Z.lor (Z.lor (Z.shiftl (t - e) 22) (Z.shiftl s 12)) q)),
           st'))
  \/ (exists err, generate now options st = (Throw err, st)
      /\ (BigInt_of_number (ms_of (timestamp_of now options)) = Throw err
          \/ BigInt_of_number (ms_of (epoch_of options st)) = Throw err
          \/ BigInt_of_number (number_remainder (shard_id_of options st) (Num 1024))
             = Throw err))
  \/ (exists err, generate now options st = (Throw err, st')
      /\ BigInt_of_number (number_remainder (SEQUENCE st) (Num 4096)) = Throw err).
Proof.
  intros st'. unfold generate, bind, read, lift, ret, set_SEQUENCE.
  fold (timestamp_of now options) (shard_id_of options st) (epoch_of options st).
  fold (ms_of (timestamp_of now options)) (ms_of (epoch_of options st)).
  fold st'.
  destruct (BigInt_of_number (ms_of (timestamp_of now options))) as [t | err] eqn:Ht;
    [|right; left; eauto].
  destruct (BigInt_of_number (ms_of (epoch_of options st))) as [e | err] eqn:He;
    [|right; left; eauto].
  destruct (BigInt_of_number (number_remainder (shard_id_of options st) (Num 1024)))
    as [s | err] eqn:Hs; [|right; left; eauto 6].
  destruct (BigInt_of_number (number_remainder (SEQUENCE st) (Num 4096)))
    as [q | err] eqn:Hq; [|right; right; eauto].
  left. exists t, e, s, q.
  repeat match goal with
         | H : BigInt_of_number ?n = Normal _ |- _ =>
             destruct n; try discriminate H; injection H as ->
         end.
  auto.
Qed.

Lemma encode_nonneg d s q :
  0 <= s -> 0 <= q -> encode d s q = encode d (s mod 1024) (q mod 4096).
Proof.
  intros Hs Hq. unfold encode.
  rewrite (Z.rem_mod_nonneg s 1024), (Z.rem_mod_nonneg q 4096) by lia.
  rewrite !Z.rem_small by (apply Z.mod_pos_bound; lia). reflexivity.
Qed.

(** [parse] reads back the three fields [generate] packed, when the
    timestamp offset fits in 42 bits and the shard id and the counter
    are not negative. *)
Lemma parse_generated d s q e epoch st :
  0 <= d < 2 ^ 42 -> 0 <= s -> 0 <= q -> Z.abs e <= max_time ->
  Date_valueOf
    (new_Date_of (match epoch with Some x => x | None => IsNumber (EPOCH st) end)) = Num e ->
  parse (BigInt_toString 10 (encode d s q)) epoch st
  = (Normal {| DeconstructedSnowflake.timestamp := Num (d + e);
               DeconstructedSnowflake.shard_id := Num (s mod 1024);
               DeconstructedSnowflake.sequence := Num (q mod 4096);
               DeconstructedSnowflake.binary := bits_msb 64 (encode d s q) |}, st).
Proof.
  intros Hd Hs Hq He Hepoch.
  assert (0 <= s mod 1024 < 1024) as Rs by (apply Z.mod_pos_bound; lia).
  assert (0 <= q mod 4096 < 4096) as Rq by (apply Z.mod_pos_bound; lia).
  destruct (encode_fields d (s mod 1024) (q mod 4096) Hd Rs Rq) as (R & T & S & Q).
  rewrite <- encode_nonneg in R, T, S, Q by assumption.
  rewrite (parse_fields _ (encode d s q) epoch e st (BigInt_toString_roundtrip _) R Hepoch).
  rewrite T, S, Q. unfold Number_of_BigInt.
  unfold max_time in He. change (2 ^ 42) with 4398046511104 in Hd.
  rewrite !Number_of_Z_exact by (change (2 ^ 53) with 9007199254740992; lia).
  reflexivity.
Qed.

Lemma epoch_argument e :
  Z.abs e <= max_time ->
  Date_valueOf (new_Date_of (IsNumber (Num e))) = Num e.
Proof. intros H. cbn. apply TimeClip_in_range. exact H. Qed.

(** [n] calls from an integer counter [c]: the k-th identifier carries
    the counter [c + k], and the counter ends at [c + n]. *)
Lemma generate_times_integers now t s e n : forall c st,
  Z.abs t <= max_time -> Z.abs e <= max_time ->
  0 <= c -> c + Z.of_nat n <= 2 ^ 53 -> SEQUENCE st = Num c ->
  generate_times n now (options_of t s e) st
  = (Normal (map (fun k => BigInt_toString 10 (encode (t - e) s (c + Z.of_nat k))) (seq 0 n)),
     {| EPOCH := EPOCH st; SHARD_ID := SHARD_ID st; SEQUENCE := Num (c + Z.of_nat n) |}).
Proof.
  induction n as [|n IH]; intros c st Ht He Hc Hn Hseq.
  - cbn [generate_times ret seq map]. rewrite Z.add_0_r, <- Hseq.
    destruct st; reflexivity.
  - cbn [generate_times]. unfold bind at 1.
    rewrite (generate_integers now t s e c st Ht He Hseq).
    rewrite Number_of_Z_succ by lia.
    unfold bind at 1. rewrite (IH (c + 1)) by (cbn [SEQUENCE]; try reflexivity; lia).
    unfold ret. cbn [EPOCH SHARD_ID seq map].
    rewrite Z.add_0_r, <- seq_shift, map_map.
    replace (c + Z.of_nat (S n)) with (c + 1 + Z.of_nat n) by lia.
    do 3 f_equal. apply map_ext. intros k. do 2 f_equal. lia.
Qed.

(* ================================================================== *)
(** * The claims *)
(* ================================================================== *)

(** ** C1: the round trip *)

(** C1, as the code has it.  Let T be an offset from the epoch of at
    least 0 that fits in 42 bits, S a shard id in [0, 1023], Q a counter
    value in [0, 4095] and E an epoch, with E and T + E time values.
    Then [generate({timestamp: T + E, shard_id: S, epoch: E})], called
    when the counter is Q, returns an identifier that [parse], given the
    same epoch E, takes apart into timestamp T + E, shard id S and
    sequence Q. *)
Theorem round_trip (now : number) (T S Q E : Z) (st : Statics) :
  0 <= T < 2 ^ 42 -> 0 <= S <= 1023 -> 0 <= Q <= 4095 ->
  Z.abs E <= max_time -> Z.abs (T + E) <= max_time ->
  SEQUENCE st = Num Q ->
  exists id st',
    generate now (options_of (T + E) S E) st = (Normal id, st')
    /\ parse id (Some (IsNumber (Num E))) st'
       = (Normal {| DeconstructedSnowflake.timestamp := Num (T + E);
                    DeconstructedSnowflake.shard_id := Num S;
                    DeconstructedSnowflake.sequence := Num Q;
                    DeconstructedSnowflake.binary :=
                      bits_msb 64 (T * 2 ^ 22 + S * 2 ^ 12 + Q) |}, st').
Proof.
  intros HT HS HQ HE HTE Hseq.
  rewrite (generate_integers now (T + E) S E Q st HTE HE Hseq).
  do 2 eexists. split; [reflexivity|].
  replace (T + E - E) with T by lia.
  rewrite (parse_generated T S Q E) by (try apply epoch_argument; lia).
  rewrite !Z.mod_small by lia. rewrite encode_sum by lia. reflexivity.
Qed.

Lemma round_trip_witness :
  exists id st',
    generate (Num 0) (options_of 1 1 0) initial_statics = (Normal id, st')
    /\ parse id (Some (IsNumber (Num 0))) st'
       = (Normal {| DeconstructedSnowflake.timestamp := Num 1;
                    DeconstructedSnowflake.shard_id := Num 1;
                    DeconstructedSnowflake.sequence := Num 1;
                    DeconstructedSnowflake.binary := bits_msb 64 4198401 |}, st').
Proof.
  apply (round_trip (Num 0) 1 1 1 0 initial_statics);
    unfold max_time; try reflexivity; simpl; lia.
Defined.

(** C1, as the spec has it, fails as soon as the epoch is not 0:
    [generate] encodes the timestamp minus the epoch, so for timestamp 5
    and epoch 2 [parse] returns the timestamp 3 under the default epoch
    and 5 under the epoch 2, and not 5 + 2. *)
Lemma round_trip_timestamp_not_sum :
  generate (Num 0) (options_of 5 1 2) initial_statics
  = (Normal (str "12587009"), {| EPOCH := Num 0; SHARD_ID := Num 1; SEQUENCE := Num 2 |})
  /\ parsed DeconstructedSnowflake.timestamp None initial_statics (str "12587009")
     = Some (Num 3)
  /\ parsed DeconstructedSnowflake.timestamp (Some (IsNumber (Num 2))) initial_statics
       (str "12587009")
     = Some (Num 5).
Proof. repeat split; vm_compute; reflexivity. Qed.

(** ** C2: the concrete example *)

(** C2.  With epoch 0, timestamp 1 ms, shard id 1 and the sequence counter
    at 1, [generate] returns the string "4198401" (and leaves the counter
    at 2); [parse("4198401", 0)] returns timestamp 1, shard id 1 and
    sequence 1, together with the 64-character binary string.  The other
    statics and the clock do not matter. *)
Theorem concrete_example (now default_epoch default_shard : number) :
  let st := {| EPOCH := default_epoch; SHARD_ID := default_shard; SEQUENCE := Num 1 |} in
  generate now (options_of 1 1 0) st
  = (Normal (str "4198401"),
     {| EPOCH := default_epoch; SHARD_ID := default_shard; SEQUENCE := Num 2 |})
  /\ parse (str "4198401") (Some (IsNumber (Num 0))) st
     = (Normal
          {| DeconstructedSnowflake.timestamp := Num 1;
             DeconstructedSnowflake.shard_id := Num 1;
             DeconstructedSnowflake.sequence := Num 1;
             DeconstructedSnowflake.binary :=
               str "0000000000000000000000000000000000000000010000000001000000000001" |},
        st).
Proof.
  split; vm_compute; reflexivity.
Qed.

(** ** C3: the shard id wraps *)

(** C3, as the code has it.  With time values for the timestamp and the
    epoch and an integer counter, [generate] raises no error for any
    integer shard id, and packs the remainder [S % 1024] into the
    identifier; the shard ids 1025 and 1 give the same identifier.  For
    a shard id that is not negative the remainder is S modulo 1024, lies
    in [0, 1023] and is the same for S + 1024; and when moreover the
    timestamp offset fits in 42 bits and the counter is not negative,
    it is the shard id [parse] reads back. *)
Theorem shard_wrap (now : number) (t S e q : Z) (st : Statics) :
  Z.abs t <= max_time -> Z.abs e <= max_time -> SEQUENCE st = Num q ->
  let st' := {| EPOCH := EPOCH st; SHARD_ID := SHARD_ID st;
                SEQUENCE := Number_of_Z (q + 1) |} in
  let id := BigInt_toString 10
              (Z.lor (Z.lor (Z.shiftl (t - e) 22) (Z.shiftl (Z.rem S 1024) 12))
                 (Z.rem q 4096)) in
  generate now (options_of t S e) st = (Normal id, st')
  /\ generate now (options_of t 1025 e) st = generate now (options_of t 1 e) st
  /\ (0 <= S ->
      Z.rem S 1024 = S mod 1024
      /\ 0 <= S mod 1024 <= 1023
      /\ generate now (options_of t (S + 1024) e) st = generate now (options_of t S e) st
      /\ (0 <= t - e < 2 ^ 42 -> 0 <= q ->
          parsed DeconstructedSnowflake.shard_id (Some (IsNumber (Num e))) st' id
          = Some (Num (S mod 1024)))).
Proof.
  intros Ht He Hq st' id.
  split; [exact (generate_integers now t S e q st Ht He Hq)|].
  split; [rewrite !(generate_integers now t _ e q st Ht He Hq); reflexivity|].
  intros HS.
  assert (0 <= S mod 1024 < 1024) as R by (apply Z.mod_pos_bound; lia).
  repeat split; try lia.
  - apply Z.rem_mod_nonneg; lia.
  - rewrite !(generate_integers now t _ e q st Ht He Hq). unfold encode.
    rewrite (Z.rem_mod_nonneg (S + 1024) 1024), (Z.rem_mod_nonneg S 1024) by lia.
    replace (S + 1024) with (S + 1 * 1024) by lia. rewrite Z.mod_add by lia. reflexivity.
  - intros Hd Hq0. unfold parsed. subst id. fold (encode (t - e) S q).
    rewrite (parse_generated (t - e) S q e) by (try apply epoch_argument; lia).
    reflexivity.
Qed.

Lemma shard_wrap_witness :
  generate (Num 0) (options_of 1 1025 0) initial_statics
  = generate (Num 0) (options_of 1 1 0) initial_statics.
Proof.
  refine (proj1 (proj2 (shard_wrap (Num 0) 1 1025 0 1 initial_statics _ _ eq_refl)));
    unfold max_time; simpl; lia.
Defined.

(** C3, as the spec has it, fails for a negative shard id: the remainder
    keeps the sign of the shard id.  For the shard id -256 it is -256;
    with the counter at 4096, where 4095 calls leave it, the identifier
    is the negative number -1048576, and [parse] reads the shard id -256
    from it: outside [0, 1023]. *)
Lemma shard_wrap_negative :
  number_remainder (Num (-256)) (Num 1024) = Num (-256)
  /\ generate (Num 0) (options_of 0 (-256) 0)
       {| EPOCH := Num 0; SHARD_ID := Num 1; SEQUENCE := Num 4096 |}
     = (Normal (str "-1048576"),
        {| EPOCH := Num 0; SHARD_ID := Num 1; SEQUENCE := Num 4097 |})
  /\ parsed DeconstructedSnowflake.shard_id None initial_statics (str "-1048576")
     = Some (Num (-256)).
Proof. repeat split; vm_compute; reflexivity. Qed.

(** ** C4: the sequence counter over many calls *)

(** C4, as the code has it.  The counter starts at 1: the initialiser of
    [SEQUENCE].  With a timestamp and an epoch whose difference fits in
    42 bits and a shard id that is not negative, 4097 calls of
    [generate] from the initial statics all return, and the k-th
    identifier (k = 1, ..., 4097) carries the sequence value k modulo
    4096: the values 1, 2, ..., 4095, then 0 at the 4096th call and 1 at
    the 4097th.  The counter ends at 4098. *)
Theorem sequence_wrap (now : number) (t s e : Z) :
  Z.abs t <= max_time -> Z.abs e <= max_time -> 0 <= t - e < 2 ^ 42 -> 0 <= s ->
  exists ids st',
    generate_times 4097 now (options_of t s e) initial_statics = (Normal ids, st')
    /\ SEQUENCE st' = Num 4098
    /\ let values :=
         map (parsed DeconstructedSnowflake.sequence (Some (IsNumber (Num e))) st') ids in
       values = map (fun k => Some (Num (Z.of_nat k mod 4096))) (seq 1 4097)
       /\ firstn 2 values = [Some (Num 1); Some (Num 2)]
       /\ skipn 4094 values = [Some (Num 4095); Some (Num 0); Some (Num 1)].
Proof.
  intros Ht He Hd Hs.
  rewrite (generate_times_integers now t s e 4097 1 initial_statics)
    by (try reflexivity; try assumption; change (2 ^ 53) with 9007199254740992; lia).
  do 2 eexists. split; [reflexivity|]. split; [reflexivity|].
  match goal with
  | |- let values := ?v in _ =>
      assert (v = map (fun k => Some (Num (Z.of_nat k mod 4096))) (seq 1 4097)) as E
  end.
  { rewrite map_map, <- seq_shift, map_map. apply map_ext. intros k.
    unfold parsed.
    rewrite (parse_generated (t - e) s (1 + Z.of_nat k) e)
      by (try apply epoch_argument; lia).
    cbn [fst DeconstructedSnowflake.sequence]. do 3 f_equal. lia. }
  cbv zeta. rewrite E. repeat split; vm_compute; reflexivity.
Qed.

Lemma sequence_wrap_witness :
  exists ids st',
    generate_times 4097 (Num 0) (options_of 1 1 0) initial_statics = (Normal ids, st')
    /\ SEQUENCE st' = Num 4098.
Proof.
  assert (Z.abs 1 <= max_time) as Ht by (unfold max_time; simpl; lia).
  assert (Z.abs 0 <= max_time) as He by (unfold max_time; simpl; lia).
  assert (0 <= 1 - 0 < 2 ^ 42) as Hd by (simpl; lia).
  assert (0 <= 1) as Hs by lia.
  destruct (sequence_wrap (Num 0) 1 1 0 Ht He Hd Hs) as (ids & st' & G & C & _).
  exists ids, st'. split; assumption.
Defined.

(** C4, as the spec has it, fails at the first call: from the initial
    statics the first identifier carries the sequence value 1, not 0. *)
Lemma first_sequence_value_is_one :
  SEQUENCE initial_statics = Num 1
  /\ generate (Num 0) (options_of 1 1 0) initial_statics
     = (Normal (str "4198401"), {| EPOCH := Num 0; SHARD_ID := Num 1; SEQUENCE := Num 2 |})
  /\ parsed DeconstructedSnowflake.sequence (Some (IsNumber (Num 0))) initial_statics
       (str "4198401")
     = Some (Num 1).
Proof. repeat split; vm_compute; reflexivity. Qed.

(** ** C5: the width of [binary] *)

(** C5.  Let [x] be a string that [BigInt] converts to [b].  When the
    base-2 digits of [b] are at most 64 characters, as they are for
    0 <= b < 2^64, [binary(x)] is those digits with '0' characters put
    in front, and is exactly 64 characters long.  When the digits are 64
    characters or more, they are returned as they are. *)
Theorem binary_width (x : jsstring) (b : Z) :
  BigInt_of_string x = Normal b ->
  let digits := BigInt_toString 2 b in
  (0 <= b < 2 ^ 64 -> (List.length digits <= 64)%nat)
  /\ ((List.length digits <= 64)%nat ->
      binary x = Normal (repeat "0"%char (64 - List.length digits) ++ digits)
      /\ List.length (repeat "0"%char (64 - List.length digits) ++ digits) = 64%nat)
  /\ ((64 <= List.length digits)%nat -> binary x = Normal digits).
Proof.
  intros Hb digits. repeat split.
  - intros R. apply (toString2_bits b 64); [exact R | lia].
  - apply binary_padded; assumption.
  - rewrite length_app, repeat_length. lia.
  - intros L. unfold binary. rewrite Hb. fold digits.
    destruct (Z.ltb_spec (Z.of_nat (List.length digits)) 64); [lia | reflexivity].
Qed.

Lemma binary_width_witness :
  binary (str "4198401")
  = Normal (str "0000000000000000000000000000000000000000010000000001000000000001").
Proof.
  destruct (binary_width (str "4198401") 4198401 eq_refl) as (_ & P & _).
  destruct P as [E _]; [vm_compute; lia|].
  rewrite E. vm_compute. reflexivity.
Defined.

(** ** C6: what [extractBits] returns *)

(** C6, as the code has it.  Let the snowflake have a value in [0, 2^64)
    and let B be its 64-character binary string.  For a bit offset
    0 <= start < 64 and a length of at least 1, [extractBits(snowflake,
    start, length)] is the Number nearest to the base-2 value of
    B[start, start + length), and without a length it is the Number
    nearest to the base-2 value of B[start, end).  The Number is that
    value itself when the slice has at most 53 bits: for a length of at
    most 53, and without a length for a start of at least 11. *)
Theorem extractBits_value (snowflake : jsstring) (b start length : Z) :
  BigInt_of_string snowflake = Normal b -> 0 <= b < 2 ^ 64 ->
  0 <= start < 64 -> 1 <= length ->
  exists B,
    binary snowflake = Normal B /\ List.length B = 64%nat
    /\ extractBits snowflake (Num start) (Some (Num length))
       = Normal (Number_of_Z (base2_value (slice B start (start + length))))
    /\ extractBits snowflake (Num start) None
       = Normal (Number_of_Z (base2_value (slice B start 64)))
    /\ (length <= 53 ->
        Number_of_Z (base2_value (slice B start (start + length)))
        = Num (base2_value (slice B start (start + length))))
    /\ (11 <= start ->
        Number_of_Z (base2_value (slice B start 64)) = Num (base2_value (slice B start 64))).
Proof.
  intros Hb R Hs Hl. exists (bits_msb 64 b).
  pose proof (binary_bits snowflake b Hb R) as HB.
  assert (forall m w, (m <= 53)%nat ->
          Number_of_Z (base2_value (bits_msb m w)) = Num (base2_value (bits_msb m w))) as X.
  { intros m w Hm. apply Number_of_Z_exact. rewrite base2_value_bits.
    assert (0 < 2 ^ Z.of_nat m) by (apply Z.pow_pos_nonneg; lia).
    pose proof (Z.mod_pos_bound w (2 ^ Z.of_nat m) ltac:(assumption)).
    assert (2 ^ Z.of_nat m <= 2 ^ 53) by (apply Z.pow_le_mono_r; lia). lia. }
  split; [exact HB|]. split; [apply bits_msb_length|].
  unfold extractBits. rewrite HB.
  assert (ToBoolean (Num length) = true) as ->.
  { simpl. destruct (Z.eqb_spec length 0); [lia | reflexivity]. }
  rewrite substring_bits by lia.
  rewrite substring_from by (rewrite bits_msb_length; lia).
  assert (skipn (Z.to_nat start) (bits_msb 64 b) = slice (bits_msb 64 b) start 64) as ->.
  { unfold slice. symmetry. apply firstn_all2.
    rewrite length_skipn, bits_msb_length. lia. }
  rewrite !slice_bits by lia.
  rewrite !parseInt_bits, !base2_value_bits by lia.
  repeat split; intros; rewrite <- base2_value_bits; apply X; lia.
Qed.

Lemma extractBits_value_witness :
  exists B,
    binary (str "4198401") = Normal B
    /\ extractBits (str "4198401") (Num 42) (Some (Num 10))
       = Normal (Num (base2_value (slice B 42 52))).
Proof.
  destruct (extractBits_value (str "4198401") 4198401 42 10 eq_refl)
    as (B & HB & _ & E & _ & X & _); [vm_compute; intuition discriminate | lia | lia |].
  exists B. split; [exact HB|].
  rewrite E. f_equal. apply X. lia.
Defined.

(** C6, as the spec has it, fails: the result is a Number, and a slice of
    more than 53 bits need not be one.  [extractBits] of a 58-bit
    identifier from offset 0 is not the integer its bits spell. *)
Lemma extractBits_rounds :
  exists B,
    binary (str "175928847299117063") = Normal B /\ List.length B = 64%nat
    /\ base2_value (slice B 0 64) = 175928847299117063
    /\ extractBits (str "175928847299117063") (Num 0) None
       = Normal (Num 175928847299117056).
Proof.
  eexists. split; [vm_compute; reflexivity|]. repeat split; vm_compute; reflexivity.
Qed.

(** A length of 0 is falsy, so it selects the one-argument [substring]:
    the bits from [start] to the end, not the empty slice. *)
Lemma extractBits_length_zero :
  extractBits (str "4198401") (Num 52) (Some (Num 0))
  = extractBits (str "4198401") (Num 52) None.
Proof. reflexivity. Qed.

(** ** C7: when [parse] throws *)

(** C7, as the code has it.  When the epoch in force (the argument, or
    the default epoch when it is omitted) is a valid date, [parse] throws
    exactly when [BigInt] rejects the string, and it throws that very
    error; for every string that [BigInt] converts, [parse] returns a
    record. *)
Theorem parse_throws_iff (snowflake : jsstring) (epoch : option DateOrNumber) (st : Statics) :
  valid_date (new_Date_of (match epoch with Some d => d | None => IsNumber (EPOCH st) end)) ->
  (forall e, fst (parse snowflake epoch st) = Throw e <-> BigInt_of_string snowflake = Throw e)
  /\ (forall b, BigInt_of_string snowflake = Normal b ->
      exists r, parse snowflake epoch st = (Normal r, st)).
Proof.
  intros V. split; [|intros b; apply parse_returns; exact V].
  intros e. destruct (BigInt_of_string snowflake) as [b | e'] eqn:Hb.
  - destruct (parse_returns snowflake epoch st b V Hb) as [r ->]. cbn [fst].
    split; discriminate.
  - rewrite (parse_propagates snowflake epoch st e' Hb). cbn [fst].
    split; intros H; inversion H; reflexivity.
Qed.

Lemma parse_throws_iff_witness :
  exists r, parse (str "4198401") None initial_statics = (Normal r, initial_statics).
Proof.
  refine (proj2 (parse_throws_iff (str "4198401") None initial_statics _) 4198401 eq_refl).
  vm_compute. discriminate.
Defined.

(** C7, as the spec has it, fails: with an invalid Date for the epoch,
    [parse] throws a RangeError on a string that [BigInt] converts. *)
Lemma parse_throws_on_invalid_epoch :
  BigInt_of_string (str "4198401") = Normal 4198401
  /\ parse (str "4198401") (Some (IsDate (new_Date NaN))) initial_statics
     = (Throw RangeError, initial_statics).
Proof. split; reflexivity. Qed.

(** ** C8: [isValid] is a total boolean gate *)

(** C8.  For every string and every state of the statics, [isValid]
    returns normally and changes nothing; it returns false when the
    string is not 17 to 22 ASCII digits, and otherwise it returns true
    exactly when [parse], called with the default epoch, returns
    normally: a throw of [parse] becomes false. *)
Theorem isValid_total (snowflake : jsstring) (st : Statics) :
  exists answer,
    isValid snowflake st = (Normal answer, st)
    /\ (digits_17_22 snowflake = false -> answer = false)
    /\ (digits_17_22 snowflake = true ->
        (answer = true <-> exists r, fst (parse snowflake None st) = Normal r)).
Proof.
  eexists. split; [apply isValid_unfold|]. split.
  - intros ->. reflexivity.
  - intros ->. cbn [andb].
    destruct (fst (parse snowflake None st)) as [r | e]; cbn [returns]; split.
    + eauto.
    + reflexivity.
    + discriminate.
    + intros [r H]. discriminate H.
Qed.

(** ** C9: what [generate] does to the statics *)

(** C9, as the code has it.  No call of [generate] changes the default
    epoch or the default shard id.  A call that returns has converted the
    timestamp, the epoch, the shard id modulo 1024 and the counter to
    integers; it renders the integer packed from them, in which the
    counter enters by its value from before the call, reduced by [%
    4096] (for a counter that is not negative, the counter modulo 4096);
    and it leaves the counter one higher: exactly so while the counter
    is below 2^53 in magnitude, the nearest Number otherwise.  A call
    that throws on an integer counter leaves the statics as they were:
    it threw before it reached the increment. *)
Theorem generate_state_frame (now : number) (options : GenerateOptions.t) (st : Statics) :
  let out := generate now options st in
  EPOCH (snd out) = EPOCH st
  /\ SHARD_ID (snd out) = SHARD_ID st
  /\ (forall id, fst out = Normal id ->
      exists t e s q,
        ms_of (timestamp_of now options) = Num t
        /\ ms_of (epoch_of options st) = Num e
        /\ number_remainder (shard_id_of options st) (Num 1024) = Num s
        /\ SEQUENCE st = Num q
        /\ id = BigInt_toString 10
                  (Z.lor (Z.lor (Z.shiftl (t - e) 22) (Z.shiftl s 12)) (Z.rem q 4096))
        /\ (0 <= q -> Z.rem q 4096 = q mod 4096)
        /\ SEQUENCE (snd out) = Number_of_Z (q + 1)
        /\ (- 2 ^ 53 <= q < 2 ^ 53 -> SEQUENCE (snd out) = Num (q + 1)))
  /\ (forall err q, fst out = Throw err -> SEQUENCE st = Num q -> snd out = st).
Proof.
  intros out. subst out.
  destruct (generate_cases now options st)
    as [(t & e & s & q' & Ht & He & Hs & Hq & ->)
       | [(err & -> & _) | (err & -> & Herr)]]; cbn [fst snd EPOCH SHARD_ID SEQUENCE].
  - repeat split; try discriminate.
    intros id [= <-]. destruct (SEQUENCE st) as [q | |] eqn:Q; try discriminate Hq.
    cbn in Hq. injection Hq as <-. exists t, e, s, q.
    repeat split; try assumption; try reflexivity.
    + intros P. apply Z.rem_mod_nonneg; lia.
    + intros P. cbn [number_add]. apply Number_of_Z_succ. exact P.
  - repeat split; discriminate.
  - repeat split; try discriminate.
    intros err' q _ Q. rewrite Q in Herr. discriminate Herr.
Qed.

(** C9, as the spec has it, fails: a call with an invalid Date for the
    timestamp throws while converting it, before the increment, and the
    counter stays at 1. *)
Lemma generate_throws_before_increment :
  generate (Num 0)
    {| GenerateOptions.timestamp := Some (IsDate (new_Date NaN));
       GenerateOptions.shard_id := None;
       GenerateOptions.epoch := None |}
    initial_statics
  = (Throw RangeError, initial_statics)
  /\ SEQUENCE initial_statics = Num 1.
Proof. split; reflexivity. Qed.

(** ** C10: strings of 17 to 22 digits *)

(** C10, as the code has it.  When the default epoch is a valid date, as
    it is initially, [isValid] returns true for every string of 17 to 22
    ASCII digits: [BigInt] converts it, so [parse] does not throw. *)
Theorem isValid_digits (snowflake : jsstring) (st : Statics) :
  digits_17_22 snowflake = true ->
  valid_date (new_Date (EPOCH st)) ->
  isValid snowflake st = (Normal true, st).
Proof.
  intros D V. rewrite isValid_unfold, D.
  destruct (digits_17_22_decimal snowflake D) as [NE F].
  destruct (StringToBigInt_decimal snowflake NE F) as [E N].
  destruct (digits_value 10 0 snowflake) as [b|] eqn:Hb; [|congruence].
  destruct (parse_returns snowflake None st b V) as [r ->]; [|reflexivity].
  unfold BigInt_of_string. rewrite E. reflexivity.
Qed.

Lemma isValid_digits_witness :
  isValid (str "12345678901234567") initial_statics = (Normal true, initial_statics).
Proof.
  apply isValid_digits; [reflexivity | vm_compute; discriminate].
Defined.

(** C10, as stated for every state, fails: once the default epoch is NaN
    (say, after [Snowflake.EPOCH = Date.parse(text)] on a malformed
    text), [isValid] returns false for a string of 17 digits. *)
Lemma isValid_digits_invalid_epoch :
  digits_17_22 (str "12345678901234567") = true
  /\ isValid (str "12345678901234567")
       {| EPOCH := NaN; SHARD_ID := Num 1; SEQUENCE := Num 1 |}
     = (Normal false, {| EPOCH := NaN; SHARD_ID := Num 1; SEQUENCE := Num 1 |}).
Proof. split; reflexivity. Qed.

(* ================================================================== *)
(** * Further properties of the codec *)
(* ================================================================== *)

(** ** Lemmas *)

(** [generate] on any form of the arguments, once they are converted. *)
Lemma generate_returns now options st t e s q :
  ms_of (timestamp_of now options) = Num t ->
  ms_of (epoch_of options st) = Num e ->
  shard_id_of options st = Num s ->
  SEQUENCE st = Num q ->
  generate now options st
  = (Normal (BigInt_toString 10 (encode (t - e) s q)),
     {| EPOCH := EPOCH st; SHARD_ID := SHARD_ID st; SEQUENCE := Number_of_Z (q + 1) |}).
Proof.
  intros Ht He Hs Hq.
  unfold generate, bind, read, lift, ret, set_SEQUENCE.
  fold (timestamp_of now options) (shard_id_of options st) (epoch_of options st).
  fold (ms_of (timestamp_of now options)) (ms_of (epoch_of options st)).
  rewrite Ht, He, Hs, Hq.
  cbn [BigInt_of_number number_remainder number_add EPOCH SHARD_ID SEQUENCE].
  change (1024 =? 0) with false. change (4096 =? 0) with false.
  cbn [BigInt_of_number]. reflexivity.
Qed.

(** The packed integer for a shard id and a counter that are not
    negative, whatever the sign and size of the offset. *)
Lemma encode_value d s q :
  0 <= s -> 0 <= q ->
  encode d s q = d * 2 ^ 22 + (s mod 1024) * 2 ^ 12 + q mod 4096.
Proof.
  intros Hs Hq. rewrite encode_nonneg by assumption.
  apply encode_sum; apply Z.mod_pos_bound; lia.
Qed.

Lemma encode_shiftr d s q :
  0 <= s -> 0 <= q -> Z.shiftr (encode d s q) 22 = d.
Proof.
  intros Hs Hq. rewrite encode_value, Z.shiftr_div_pow2 by lia.
  pose proof (Z.mod_pos_bound s 1024 ltac:(lia)).
  pose proof (Z.mod_pos_bound q 4096 ltac:(lia)).
  change (2 ^ 22) with 4194304. change (2 ^ 12) with 4096.
  symmetry. apply Z.div_unique with ((s mod 1024) * 4096 + q mod 4096); lia.
Qed.

(** A time value is an integer of at most 8.64e15 in magnitude, and
    clipping it again changes nothing. *)
Lemma TimeClip_Num n z : TimeClip n = Num z -> n = Num z /\ Z.abs z <= max_time.
Proof.
  destruct n as [v | | neg]; cbn; try discriminate.
  destruct (Z.leb_spec (Z.abs v) 8640000000000000); [|discriminate].
  intros [= <-]. unfold max_time. auto.
Qed.

Lemma ms_of_range x z : ms_of x = Num z -> Z.abs z <= max_time.
Proof.
  destruct x as [[v] | v]; cbn [ms_of Date_valueOf]; intros H;
    apply TimeClip_Num in H; tauto.
Qed.

(** The epoch [parse] uses, given the same epoch argument as [generate]. *)
Lemma parse_epoch_of options st z :
  ms_of (epoch_of options st) = Num z ->
  Date_valueOf
    (new_Date_of (match GenerateOptions.epoch options with
                  | Some x => x
                  | None => IsNumber (EPOCH st)
                  end)) = Num z.
Proof.
  unfold epoch_of. intros H.
  destruct (GenerateOptions.epoch options) as [[d | n] |]; cbn [ms_of new_Date_of] in *;
    try exact H.
  cbn [Date_valueOf]. rewrite H. apply TimeClip_in_range.
  destruct d as [v]. cbn [Date_valueOf] in H. apply TimeClip_Num in H. tauto.
Qed.

(** With a valid date for the epoch, the timestamp [parse] returns is the
    value shifted right by 22 bits plus the epoch, for every string that
    [BigInt] converts. *)
Lemma parse_timestamp x b epoch e st :
  BigInt_of_string x = Normal b ->
  Date_valueOf
    (new_Date_of (match epoch with Some d => d | None => IsNumber (EPOCH st) end)) = Num e ->
  exists r,
    parse x epoch st = (Normal r, st)
    /\ DeconstructedSnowflake.timestamp r = Number_of_BigInt (Z.shiftr b 22 + e).
Proof.
  intros Hb He. unfold parse, bind, read, lift, ret.
  destruct (binary_returns x b Hb) as [B ->]. rewrite Hb, He.
  cbn [BigInt_of_number].
  destruct (extractBits_returns x b (Num 42) (Some (Num 10)) Hb) as [s ->].
  destruct (extractBits_returns x b (Num 52) None Hb) as [q ->].
  eexists. split; reflexivity.
Qed.

(** Two integers with the same decimal rendering are equal. *)
Lemma BigInt_toString_injective a b :
  BigInt_toString 10 a = BigInt_toString 10 b -> a = b.
Proof.
  intros H. pose proof (BigInt_toString_roundtrip a) as Ra.
  rewrite H, BigInt_toString_roundtrip in Ra. congruence.
Qed.

Lemma mod_4096_shift c i j :
  (c + i) mod 4096 = (c + j) mod 4096 <-> i mod 4096 = j mod 4096.
Proof.
  rewrite (Z.add_mod c i), (Z.add_mod c j) by lia.
  pose proof (Z.mod_pos_bound c 4096 ltac:(lia)).
  pose proof (Z.mod_pos_bound i 4096 ltac:(lia)).
  pose proof (Z.mod_pos_bound j 4096 ltac:(lia)).
  set (x := c mod 4096) in *. set (y := i mod 4096) in *. set (z := j mod 4096) in *.
  split; intros E.
  - destruct (Z.lt_ge_cases (x + y) 4096), (Z.lt_ge_cases (x + z) 4096).
    + rewrite !Z.mod_small in E by lia. lia.
    + rewrite (Z.mod_small (x + y)) in E by lia.
      replace (x + z) with (x + z - 4096 + 1 * 4096) in E by lia.
      rewrite Z.mod_add, Z.mod_small in E by lia. lia.
    + rewrite (Z.mod_small (x + z)) in E by lia.
      replace (x + y) with (x + y - 4096 + 1 * 4096) in E by lia.
      rewrite Z.mod_add, Z.mod_small in E by lia. lia.
    + replace (x + y) with (x + y - 4096 + 1 * 4096) in E by lia.
      replace (x + z) with (x + z - 4096 + 1 * 4096) in E by lia.
      rewrite !Z.mod_add, !Z.mod_small in E by lia. lia.
  - rewrite E. reflexivity.
Qed.

(** ** X1: when two identifiers are equal *)

(** X1.  Two calls of [generate] with time values for the timestamps and
    epochs, and shard ids and counters that are not negative, both
    return, and they return the same identifier exactly when they agree
    on the offset timestamp - epoch, on the shard id modulo 1024 and on
    the counter modulo 4096. *)
Theorem identifiers_equal_iff (now1 now2 : number) (t1 s1 e1 q1 t2 s2 e2 q2 : Z)
  (st1 st2 : Statics) :
  Z.abs t1 <= max_time -> Z.abs e1 <= max_time ->
  Z.abs t2 <= max_time -> Z.abs e2 <= max_time ->
  0 <= s1 -> 0 <= s2 -> 0 <= q1 -> 0 <= q2 ->
  SEQUENCE st1 = Num q1 -> SEQUENCE st2 = Num q2 ->
  exists id1 id2,
    fst (generate now1 (options_of t1 s1 e1) st1) = Normal id1
    /\ fst (generate now2 (options_of t2 s2 e2) st2) = Normal id2
    /\ (id1 = id2 <->
        t1 - e1 = t2 - e2 /\ s1 mod 1024 = s2 mod 1024 /\ q1 mod 4096 = q2 mod 4096).
Proof.
  intros Ht1 He1 Ht2 He2 Hs1 Hs2 Hq1 Hq2 Q1 Q2.
  rewrite (generate_integers now1 t1 s1 e1 q1 st1 Ht1 He1 Q1).
  rewrite (generate_integers now2 t2 s2 e2 q2 st2 Ht2 He2 Q2).
  do 2 eexists. split; [reflexivity|]. split; [reflexivity|].
  pose proof (Z.mod_pos_bound s1 1024 ltac:(lia)).
  pose proof (Z.mod_pos_bound s2 1024 ltac:(lia)).
  pose proof (Z.mod_pos_bound q1 4096 ltac:(lia)).
  pose proof (Z.mod_pos_bound q2 4096 ltac:(lia)).
  split.
  - intros E. apply BigInt_toString_injective in E.
    rewrite !encode_value in E by assumption.
    change (2 ^ 22) with 4194304 in E. change (2 ^ 12) with 4096 in E. lia.
  - intros (Ed & Es & Eq). rewrite !encode_value by assumption.
    rewrite Ed, Es, Eq. reflexivity.
Qed.

Lemma identifiers_equal_iff_witness :
  exists id1 id2,
    fst (generate (Num 0) (options_of 7 1 2) initial_statics) = Normal id1
    /\ fst (generate (Num 0) (options_of 5 1025 0) initial_statics) = Normal id2
    /\ id1 = id2.
Proof.
  destruct (identifiers_equal_iff (Num 0) (Num 0) 7 1 2 1 5 1025 0 1
              initial_statics initial_statics)
    as (id1 & id2 & G1 & G2 & E); unfold max_time; try reflexivity; try (simpl; lia).
  exists id1, id2. split; [exact G1|]. split; [exact G2|].
  apply E. repeat split; reflexivity.
Defined.

(** ** X2: identifiers sort by time *)

(** X2.  Under the same conditions the integers the two identifiers
    spell are ordered first by the offset timestamp - epoch, then by the
    shard id modulo 1024, then by the counter modulo 4096: an identifier
    made at a later offset is the larger number. *)
Theorem identifiers_ordered (now1 now2 : number) (t1 s1 e1 q1 t2 s2 e2 q2 : Z)
  (st1 st2 : Statics) :
  Z.abs t1 <= max_time -> Z.abs e1 <= max_time ->
  Z.abs t2 <= max_time -> Z.abs e2 <= max_time ->
  0 <= s1 -> 0 <= s2 -> 0 <= q1 -> 0 <= q2 ->
  SEQUENCE st1 = Num q1 -> SEQUENCE st2 = Num q2 ->
  exists id1 id2 b1 b2,
    fst (generate now1 (options_of t1 s1 e1) st1) = Normal id1
    /\ fst (generate now2 (options_of t2 s2 e2) st2) = Normal id2
    /\ BigInt_of_string id1 = Normal b1
    /\ BigInt_of_string id2 = Normal b2
    /\ (b1 < b2 <->
        t1 - e1 < t2 - e2
        \/ (t1 - e1 = t2 - e2
            /\ (s1 mod 1024 < s2 mod 1024
                \/ (s1 mod 1024 = s2 mod 1024 /\ q1 mod 4096 < q2 mod 4096)))).
Proof.
  intros Ht1 He1 Ht2 He2 Hs1 Hs2 Hq1 Hq2 Q1 Q2.
  rewrite (generate_integers now1 t1 s1 e1 q1 st1 Ht1 He1 Q1).
  rewrite (generate_integers now2 t2 s2 e2 q2 st2 Ht2 He2 Q2).
  do 4 eexists. split; [reflexivity|]. split; [reflexivity|].
  split; [apply BigInt_toString_roundtrip|]. split; [apply BigInt_toString_roundtrip|].
  rewrite !encode_value by assumption.
  pose proof (Z.mod_pos_bound s1 1024 ltac:(lia)).
  pose proof (Z.mod_pos_bound s2 1024 ltac:(lia)).
  pose proof (Z.mod_pos_bound q1 4096 ltac:(lia)).
  pose proof (Z.mod_pos_bound q2 4096 ltac:(lia)).
  change (2 ^ 22) with 4194304. change (2 ^ 12) with 4096. lia.
Qed.

Lemma identifiers_ordered_witness :
  exists id1 id2 b1 b2,
    fst (generate (Num 0) (options_of 5 1023 0) initial_statics) = Normal id1
    /\ fst (generate (Num 0) (options_of 6 0 0) initial_statics) = Normal id2
    /\ BigInt_of_string id1 = Normal b1
    /\ BigInt_of_string id2 = Normal b2
    /\ b1 < b2.
Proof.
  destruct (identifiers_ordered (Num 0) (Num 0) 5 1023 0 1 6 0 0 1
              initial_statics initial_statics)
    as (id1 & id2 & b1 & b2 & G1 & G2 & B1 & B2 & E);
    unfold max_time; try reflexivity; try (simpl; lia).
  exists id1, id2, b1, b2. repeat (split; [assumption|]).
  apply E. left. lia.
Defined.

(** ** X3: identifiers of consecutive calls *)

(** X3.  [n] calls of [generate] in a row with the same timestamp, shard
    id (not negative) and epoch, from a counter [c] that is not negative
    and stays within 2^53, all return; the i-th and the j-th identifier
    are equal exactly when i and j are congruent modulo 4096.  So up to
    4096 calls in a row give identifiers that differ from each other,
    and the 4097th repeats the first. *)
Theorem identifiers_repeat_every_4096 (now : number) (t s e c : Z) (n : nat) (st : Statics) :
  Z.abs t <= max_time -> Z.abs e <= max_time -> 0 <= s ->
  0 <= c -> c + Z.of_nat n <= 2 ^ 53 -> SEQUENCE st = Num c ->
  exists ids st',
    generate_times n now (options_of t s e) st = (Normal ids, st')
    /\ List.length ids = n
    /\ (forall i j, (i < n)%nat -> (j < n)%nat ->
        (nth i ids [] = nth j ids [] <-> Z.of_nat i mod 4096 = Z.of_nat j mod 4096))
    /\ ((n <= 4096)%nat -> NoDup ids).
Proof.
  intros Ht He Hs Hc Hn Hseq.
  rewrite (generate_times_integers now t s e n c st Ht He Hc Hn Hseq).
  do 2 eexists. split; [reflexivity|].
  set (f := fun k : nat => BigInt_toString 10 (encode (t - e) s (c + Z.of_nat k))).
  assert (forall i, (i < n)%nat -> nth i (map f (seq 0 n)) [] = f i) as N.
  { intros i Hi. rewrite (nth_indep _ [] (f 0%nat)) by (rewrite length_map, length_seq; lia).
    rewrite map_nth, seq_nth by lia. reflexivity. }
  assert (forall i j, f i = f j <-> Z.of_nat i mod 4096 = Z.of_nat j mod 4096) as F.
  { intros i j. unfold f. rewrite <- (mod_4096_shift c). split.
    - intros E. apply BigInt_toString_injective in E.
      rewrite !encode_value in E by lia.
      pose proof (Z.mod_pos_bound (c + Z.of_nat i) 4096 ltac:(lia)).
      pose proof (Z.mod_pos_bound (c + Z.of_nat j) 4096 ltac:(lia)). lia.
    - intros E. rewrite !encode_value by lia. rewrite E. reflexivity. }
  split; [rewrite length_map, length_seq; reflexivity|]. split.
  - intros i j Hi Hj. rewrite !N by assumption. apply F.
  - intros L. apply (NoDup_nth _ []). rewrite length_map, length_seq.
    intros i j Hi Hj E. rewrite !N in E by assumption. apply F in E.
    rewrite !Z.mod_small in E by lia. lia.
Qed.

Lemma identifiers_repeat_every_4096_witness :
  exists ids st',
    generate_times 4097 (Num 0) (options_of 1 1 0) initial_statics = (Normal ids, st')
    /\ nth 0 ids [] = nth 4096 ids [].
Proof.
  assert (Z.abs 1 <= max_time) as Ht by (unfold max_time; simpl; lia).
  assert (Z.abs 0 <= max_time) as He by (unfold max_time; simpl; lia).
  assert (1 + Z.of_nat 4097 <= 2 ^ 53) as Hn by (simpl; lia).
  destruct (identifiers_repeat_every_4096 (Num 0) 1 1 0 1 4097 initial_statics
              Ht He ltac:(lia) ltac:(lia) Hn eq_refl)
    as (ids & st' & G & _ & E & _).
  exists ids, st'. split; [exact G|].
  apply E; [lia | lia | reflexivity].
Defined.

(** ** X4: the round trip on every form of the arguments *)

(** X4.  Whatever the form of the arguments of [generate] (a Date, a
    Number, or omitted, so that the clock, the default shard id and the
    default epoch are used): when the timestamp and the epoch are valid
    dates whose difference fits in 42 bits and is not negative, and the
    shard id and the counter are integers that are not negative, then
    [generate] returns an identifier from which [parse], given the same
    epoch argument, reads the timestamp in milliseconds, the shard id
    modulo 1024 and the counter modulo 4096. *)
Theorem round_trip_any_arguments (now : number) (options : GenerateOptions.t)
  (st : Statics) (t e s q : Z) :
  ms_of (timestamp_of now options) = Num t ->
  ms_of (epoch_of options st) = Num e ->
  shard_id_of options st = Num s ->
  SEQUENCE st = Num q ->
  0 <= t - e < 2 ^ 42 -> 0 <= s -> 0 <= q ->
  exists id st',
    generate now options st = (Normal id, st')
    /\ parse id (GenerateOptions.epoch options) st'
       = (Normal {| DeconstructedSnowflake.timestamp := Num t;
                    DeconstructedSnowflake.shard_id := Num (s mod 1024);
                    DeconstructedSnowflake.sequence := Num (q mod 4096);
                    DeconstructedSnowflake.binary := bits_msb 64 (encode (t - e) s q) |},
          st').
Proof.
  intros Ht He Hs Hq Hd Hs0 Hq0.
  rewrite (generate_returns now options st t e s q Ht He Hs Hq).
  do 2 eexists. split; [reflexivity|].
  rewrite (parse_generated (t - e) s q e); try assumption.
  - replace (t - e + e) with t by lia. reflexivity.
  - apply (ms_of_range _ _ He).
  - cbn [EPOCH]. apply parse_epoch_of. exact He.
Qed.

Lemma round_trip_any_arguments_witness :
  exists id st',
    generate (Num 1700000000000)
      {| GenerateOptions.timestamp := None;
         GenerateOptions.shard_id := None;
         GenerateOptions.epoch := None |} initial_statics
    = (Normal id, st')
    /\ parsed DeconstructedSnowflake.timestamp None st' id = Some (Num 1700000000000).
Proof.
  destruct (round_trip_any_arguments (Num 1700000000000)
              {| GenerateOptions.timestamp := None;
                 GenerateOptions.shard_id := None;
                 GenerateOptions.epoch := None |}
              initial_statics 1700000000000 0 1 1 eq_refl eq_refl eq_refl eq_refl)
    as (id & st' & G & P); [simpl; lia | lia | lia |].
  exists id, st'. split; [exact G|].
  unfold parsed. cbn [GenerateOptions.epoch] in P. rewrite P. reflexivity.
Defined.

(** ** X5: the timestamp outside the 42 bits, and under another epoch *)

(** X5.  The timestamp survives every offset.  For time values t, e and
    e', and a shard id and a counter that are not negative, [generate]
    on timestamp t and epoch e returns an identifier from which [parse]
    reads the timestamp t under the epoch e, also when t - e is negative
    or does not fit in 42 bits; under another epoch e' it reads, without
    an error, the Number nearest to t - e + e'. *)
Theorem timestamp_survives (now : number) (t s e q e' : Z) (st : Statics) :
  Z.abs t <= max_time -> Z.abs e <= max_time -> Z.abs e' <= max_time ->
  0 <= s -> 0 <= q -> SEQUENCE st = Num q ->
  exists id st',
    generate now (options_of t s e) st = (Normal id, st')
    /\ parsed DeconstructedSnowflake.timestamp (Some (IsNumber (Num e))) st' id
       = Some (Num t)
    /\ parsed DeconstructedSnowflake.timestamp (Some (IsNumber (Num e'))) st' id
       = Some (Number_of_Z (t - e + e')).
Proof.
  intros Ht He He' Hs Hq Hseq.
  rewrite (generate_integers now t s e q st Ht He Hseq).
  do 2 eexists. split; [reflexivity|].
  assert (forall x, Z.abs x <= max_time ->
          parsed DeconstructedSnowflake.timestamp (Some (IsNumber (Num x)))
            {| EPOCH := EPOCH st; SHARD_ID := SHARD_ID st; SEQUENCE := Number_of_Z (q + 1) |}
            (BigInt_toString 10 (encode (t - e) s q))
          = Some (Number_of_Z (t - e + x))) as P.
  { intros x Hx. unfold parsed.
    destruct (parse_timestamp _ _ (Some (IsNumber (Num x))) x
                {| EPOCH := EPOCH st; SHARD_ID := SHARD_ID st;
                   SEQUENCE := Number_of_Z (q + 1) |}
                (BigInt_toString_roundtrip (encode (t - e) s q))
                (epoch_argument x Hx)) as (r & -> & T).
    cbn [fst]. rewrite T, encode_shiftr by assumption. reflexivity. }
  split; [|apply P; exact He'].
  rewrite (P e He). replace (t - e + e) with t by lia.
  rewrite Number_of_Z_exact; [reflexivity|].
  unfold max_time in Ht. change (2 ^ 53) with 9007199254740992. lia.
Qed.

Lemma timestamp_survives_witness :
  exists id st',
    generate (Num 0) (options_of 5 1 9) initial_statics = (Normal id, st')
    /\ parsed DeconstructedSnowflake.timestamp (Some (IsNumber (Num 9))) st' id
       = Some (Num 5).
Proof.
  destruct (timestamp_survives (Num 0) 5 1 9 1 0 initial_statics)
    as (id & st' & G & P & _); unfold max_time; try reflexivity; try (simpl; lia).
  exists id, st'. split; assumption.
Defined.

(** ** X6: [parse] accepts what [generate] returns *)

(** X6.  Every identifier [generate] returns, on whatever arguments and
    statics, is a string [BigInt] converts; so [parse] returns a record
    for it whenever the epoch in force is a valid date. *)
Theorem parse_accepts_generated (now : number) (options : GenerateOptions.t)
  (st st' : Statics) (id : jsstring) (epoch : option DateOrNumber) :
  generate now options st = (Normal id, st') ->
  valid_date (new_Date_of (match epoch with Some d => d | None => IsNumber (EPOCH st') end)) ->
  (exists b, BigInt_of_string id = Normal b)
  /\ exists r, parse id epoch st' = (Normal r, st').
Proof.
  intros G V.
  assert (exists b, BigInt_of_string id = Normal b) as [b Hb].
  { destruct (generate_cases now options st)
      as [(t & e & s & q & _ & _ & _ & _ & E) | [(err & E & _) | (err & E & _)]];
      rewrite E in G; try discriminate G.
    injection G as <- _. eexists. apply BigInt_toString_roundtrip. }
  split; [eauto|]. apply (parse_returns id epoch st' b V Hb).
Qed.

Lemma parse_accepts_generated_witness :
  exists r,
    parse (str "4198401") None {| EPOCH := Num 0; SHARD_ID := Num 1; SEQUENCE := Num 2 |}
    = (Normal r, {| EPOCH := Num 0; SHARD_ID := Num 1; SEQUENCE := Num 2 |}).
Proof.
  refine (proj2 (parse_accepts_generated (Num 0) (options_of 1 1 0) initial_statics
                   {| EPOCH := Num 0; SHARD_ID := Num 1; SEQUENCE := Num 2 |}
                   (str "4198401") None _ _)).
  - vm_compute. reflexivity.
  - vm_compute. discriminate.
Defined.

(** ** X7: [isValid] and the default epoch *)

(** With an invalid date for the epoch, [parse] throws on every string. *)
Lemma parse_throws_invalid_epoch x epoch st :
  Date_valueOf
    (new_Date_of (match epoch with Some d => d | None => IsNumber (EPOCH st) end)) = NaN ->
  exists err, parse x epoch st = (Throw err, st).
Proof.
  intros E. destruct (BigInt_of_string x) as [b | err] eqn:Hb.
  - exists RangeError. unfold parse, bind, read, lift, ret.
    destruct (binary_returns x b Hb) as [B ->]. rewrite Hb, E. reflexivity.
  - exists err. apply parse_propagates. exact Hb.
Qed.

(** X7.  When the default epoch is a valid date, [isValid] is exactly the
    test for 17 to 22 ASCII digits.  When it is not, [parse] with the
    default epoch throws on every string, and [isValid] returns false on
    every string. *)
Theorem isValid_is_the_pattern (snowflake : jsstring) (st : Statics) :
  (valid_date (new_Date (EPOCH st)) ->
   isValid snowflake st = (Normal (digits_17_22 snowflake), st))
  /\ (Date_valueOf (new_Date (EPOCH st)) = NaN ->
      isValid snowflake st = (Normal false, st)
      /\ exists err, parse snowflake None st = (Throw err, st)).
Proof.
  split.
  - intros V. rewrite isValid_unfold.
    destruct (digits_17_22 snowflake) eqn:D; [|reflexivity].
    destruct (digits_17_22_decimal snowflake D) as [NE F].
    destruct (StringToBigInt_decimal snowflake NE F) as [E N].
    destruct (digits_value 10 0 snowflake) as [b|] eqn:Hb; [|congruence].
    destruct (parse_returns snowflake None st b V) as [r ->]; [|reflexivity].
    unfold BigInt_of_string. rewrite E. reflexivity.
  - intros E. destruct (parse_throws_invalid_epoch snowflake None st E) as [err P].
    split; [|eauto]. rewrite isValid_unfold, P. cbn [fst returns].
    rewrite andb_false_r. reflexivity.
Qed.

(** ** X8: [isValid] on the identifiers of [generate] *)

Lemma digits_of_10_length fuel : forall n acc k,
  0 <= n < 2 ^ Z.of_nat fuel -> (1 <= k)%nat ->
  (n < 10 ^ Z.of_nat k
   <-> (List.length (digits_of 10 fuel n acc) <= k + List.length acc)%nat).
Proof.
  induction fuel as [|fuel IH]; intros n acc k Hn Hk.
  - simpl in Hn. assert (n = 0) by lia. subst n. cbn [digits_of].
    assert (0 < 10 ^ Z.of_nat k) by (apply Z.pow_pos_nonneg; lia). split; lia.
  - assert (10 <= 10 ^ Z.of_nat k) as P.
    { change 10 with (10 ^ 1) at 1. apply Z.pow_le_mono_r; lia. }
    cbn [digits_of]. destruct (Z.ltb_spec n 10) as [L | L].
    + cbn [List.length]. split; lia.
    + rewrite Nat2Z.inj_succ, Z.pow_succ_r in Hn by lia.
      assert (0 <= n / 10 < 2 ^ Z.of_nat fuel) as R.
      { split; [apply Z.div_pos; lia | apply Z.div_lt_upper_bound; lia]. }
      destruct k as [|[|k]]; [lia | |].
      * split; [simpl; lia|]. intros Len. exfalso.
        destruct fuel as [|fuel].
        -- simpl in R. assert (n / 10 = 0) as Z0 by lia.
           apply Z.div_small_iff in Z0; lia.
        -- pose proof (digits_of_nonempty 10 fuel (n / 10)
                         (digit_char (n mod 10) :: acc)) as NE.
           cbn [List.length] in NE. lia.
      * pose proof (IH (n / 10) (digit_char (n mod 10) :: acc) (S k) R ltac:(lia)) as I.
        cbn [List.length] in I.
        assert (n < 10 ^ Z.of_nat (S (S k)) <-> n / 10 < 10 ^ Z.of_nat (S k)) as D.
        { rewrite (Nat2Z.inj_succ (S k)), Z.pow_succ_r by lia.
          assert (0 < 10 ^ Z.of_nat (S k)) by (apply Z.pow_pos_nonneg; lia).
          pose proof (Z.div_mod n 10 ltac:(lia)).
          pose proof (Z.mod_pos_bound n 10 ltac:(lia)).
          split; intros; nia. }
        rewrite D, I. split; lia.
Qed.

(** A rendered integer is 17 to 22 digits exactly from 10^16 to below
    10^22; a negative one starts with a minus sign. *)
Lemma digits_17_22_toString b :
  digits_17_22 (BigInt_toString 10 b) = (10 ^ 16 <=? b) && (b <? 10 ^ 22).
Proof.
  unfold BigInt_toString. destruct (Z.ltb_spec b 0) as [L | L].
  - unfold digits_17_22. cbn [forallb]. change (is_decimal_digit "-") with false.
    cbn [andb]. rewrite andb_false_r.
    destruct (Z.leb_spec (10 ^ 16) b); [lia | reflexivity].
  - rewrite Z.abs_eq by lia.
    set (ds := digits_of 10 (S (Z.to_nat (Z.log2 b))) b []).
    assert (forall k, (1 <= k)%nat -> (b < 10 ^ Z.of_nat k <-> (List.length ds <= k)%nat)) as K.
    { intros k Hk. unfold ds. rewrite (digits_of_10_length _ b [] k) by
        (try apply toString_fuel; lia). cbn [List.length]. rewrite Nat.add_0_r. tauto. }
    assert (forallb is_decimal_digit ds = true) as F.
    { apply forallb_forall. apply Forall_forall.
      apply digits_of_Forall; [lia | apply digit_char_decimal | constructor]. }
    unfold digits_17_22. rewrite F, andb_true_r.
    pose proof (K 16%nat ltac:(lia)) as K16. pose proof (K 22%nat ltac:(lia)) as K22.
    change (Z.of_nat 16) with 16 in K16. change (Z.of_nat 22) with 22 in K22.
    destruct (Z.leb_spec (10 ^ 16) b), (Z.ltb_spec b (10 ^ 22)),
      (Nat.leb_spec 17 (List.length ds)), (Nat.leb_spec (List.length ds) 22);
      try reflexivity; exfalso; intuition lia.
Qed.

(** X8.  [isValid] does not accept every identifier [generate] returns.
    With time values for the timestamp and the epoch, a shard id and a
    counter that are not negative, and a valid default epoch, [isValid]
    accepts the identifier exactly when the integer it spells is at least
    10^16 and below 10^22.  So it rejects every identifier made less than
    2384185791 ms (some 27.6 days) after the epoch, or before it, and
    accepts every identifier made from 2384185792 ms after the epoch on
    whose offset fits in 42 bits. *)
Theorem isValid_generated (now : number) (t s e q : Z) (st : Statics) :
  Z.abs t <= max_time -> Z.abs e <= max_time -> 0 <= s -> 0 <= q ->
  SEQUENCE st = Num q -> valid_date (new_Date (EPOCH st)) ->
  exists id st',
    generate now (options_of t s e) st = (Normal id, st')
    /\ isValid id st'
       = (Normal
            ((10 ^ 16 <=? (t - e) * 2 ^ 22 + (s mod 1024) * 2 ^ 12 + q mod 4096)
             && ((t - e) * 2 ^ 22 + (s mod 1024) * 2 ^ 12 + q mod 4096 <? 10 ^ 22)), st')
    /\ (t - e < 2384185791 -> isValid id st' = (Normal false, st'))
    /\ (2384185792 <= t - e < 2 ^ 42 -> isValid id st' = (Normal true, st')).
Proof.
  intros Ht He Hs Hq Hseq V.
  rewrite (generate_integers now t s e q st Ht He Hseq).
  do 2 eexists. split; [reflexivity|].
  set (st' := {| EPOCH := EPOCH st; SHARD_ID := SHARD_ID st;
                 SEQUENCE := Number_of_Z (q + 1) |}).
  assert (isValid (BigInt_toString 10 (encode (t - e) s q)) st'
          = (Normal (digits_17_22 (BigInt_toString 10 (encode (t - e) s q))), st')) as E.
  { rewrite isValid_unfold.
    destruct (parse_returns (BigInt_toString 10 (encode (t - e) s q)) None st'
                (encode (t - e) s q) V (BigInt_toString_roundtrip _)) as [r ->].
    cbn [fst returns]. rewrite andb_true_r. reflexivity. }
  rewrite E, digits_17_22_toString, encode_value by assumption.
  pose proof (Z.mod_pos_bound s 1024 ltac:(lia)).
  pose proof (Z.mod_pos_bound q 4096 ltac:(lia)).
  change (2 ^ 22) with 4194304. change (2 ^ 12) with 4096.
  change (2 ^ 42) with 4398046511104.
  change (10 ^ 16) with 10000000000000000.
  change (10 ^ 22) with 10000000000000000000000.
  split; [reflexivity|]. split; intros D.
  - destruct (Z.leb_spec 10000000000000000
                ((t - e) * 4194304 + s mod 1024 * 4096 + q mod 4096)); [lia | reflexivity].
  - destruct (Z.leb_spec 10000000000000000
                ((t - e) * 4194304 + s mod 1024 * 4096 + q mod 4096)),
      (Z.ltb_spec ((t - e) * 4194304 + s mod 1024 * 4096 + q mod 4096)
         10000000000000000000000); try reflexivity; lia.
Qed.

Lemma isValid_generated_witness :
  exists id st',
    generate (Num 0) (options_of 1 1 0) initial_statics = (Normal id, st')
    /\ isValid id st' = (Normal false, st').
Proof.
  assert (Z.abs 1 <= max_time) as Ht by (unfold max_time; simpl; lia).
  assert (Z.abs 0 <= max_time) as He by (unfold max_time; simpl; lia).
  assert (valid_date (new_Date (EPOCH initial_statics))) as V by (vm_compute; discriminate).
  destruct (isValid_generated (Num 0) 1 1 0 1 initial_statics
              Ht He ltac:(lia) ltac:(lia) eq_refl V)
    as (id & st' & G & _ & F & _).
  exists id, st'. split; [exact G|]. apply F. lia.
Defined.

(** ** X9 to X13: the binary string and the bit fields of any value *)

(** The base-2 digits of a positive integer are its bits up to the
    highest one: nothing is put in front. *)
Lemma toString2_exact b :
  0 < b -> BigInt_toString 2 b = bits_msb (Z.to_nat (Z.log2 b + 1)) b.
Proof.
  intros H. pose proof (Z.log2_nonneg b) as L0.
  destruct (Z.log2_spec b H) as [Lo Hi].
  set (n := Z.to_nat (Z.log2 b + 1)).
  assert (Z.of_nat n = Z.succ (Z.log2 b)) as N by (unfold n; lia).
  destruct (toString2_bits b n) as [Len E]; [rewrite N; lia | lia |].
  destruct (n - List.length (BigInt_toString 2 b))%nat as [|pad] eqn:P;
    [exact E|].
  exfalso. replace n with (1 + Z.to_nat (Z.log2 b))%nat in E by lia.
  rewrite bits_msb_split in E. rewrite Z2Nat.id in E by lia.
  replace (b / 2 ^ Z.log2 b) with 1 in E.
  - cbn in E. discriminate E.
  - rewrite Z.pow_succ_r in Hi by lia.
    apply Z.div_unique with (b - 2 ^ Z.log2 b); lia.
Qed.

(** The binary string of a value that is not negative: its bits, in 64
    characters or in as many as the value needs. *)
Lemma binary_nonneg x b :
  BigInt_of_string x = Normal b -> 0 <= b ->
  binary x = Normal (bits_msb (Nat.max 64 (Z.to_nat (Z.log2 b + 1))) b).
Proof.
  intros Hb H. pose proof (Z.log2_nonneg b) as L0.
  destruct (Z.lt_ge_cases b (2 ^ 64)) as [S | S].
  - rewrite (binary_bits x b Hb) by lia.
    assert (Z.log2 b < 64) as L.
    { destruct (Z.eq_dec b 0) as [-> | N]; [reflexivity|].
      apply Z.log2_lt_pow2; lia. }
    rewrite Nat.max_l by lia. reflexivity.
  - assert (64 <= Z.log2 b) as L.
    { apply Z.log2_le_pow2; lia. }
    rewrite Nat.max_r by lia. unfold binary. rewrite Hb.
    rewrite toString2_exact by lia. rewrite bits_msb_length.
    destruct (Z.ltb_spec (Z.of_nat (Z.to_nat (Z.log2 b + 1))) 64); [lia | reflexivity].
Qed.

Lemma bits_msb_spells n b :
  0 <= b < 2 ^ Z.of_nat n -> base2_value (bits_msb n b) = b.
Proof. intros H. rewrite base2_value_bits. apply Z.mod_small. exact H. Qed.

(** X9.  [binary] loses nothing of a value that is not negative: the
    string it returns has at least 64 characters, all of them '0' or
    '1', and read in base 2 it is the value again, also when the value
    needs more than 64 bits.  It has exactly 64 characters exactly when
    the value is below 2^64. *)
Theorem binary_spells_the_value (x : jsstring) (b : Z) :
  BigInt_of_string x = Normal b -> 0 <= b ->
  exists B,
    binary x = Normal B
    /\ (64 <= List.length B)%nat
    /\ Forall (fun c => is_binary_digit c = true) B
    /\ base2_value B = b
    /\ (List.length B = 64%nat <-> b < 2 ^ 64).
Proof.
  intros Hb H. pose proof (Z.log2_nonneg b) as L0.
  eexists. split; [apply (binary_nonneg x b Hb H)|].
  rewrite bits_msb_length. split; [lia|]. split; [apply bits_msb_binary|]. split.
  - apply bits_msb_spells. split; [lia|].
    destruct (Z.eq_dec b 0) as [-> | N]; [apply Z.pow_pos_nonneg; lia|].
    apply Z.lt_le_trans with (2 ^ Z.succ (Z.log2 b)); [apply Z.log2_spec; lia|].
    apply Z.pow_le_mono_r; lia.
  - split; intros E.
    + destruct (Z.eq_dec b 0) as [-> | N]; [reflexivity|].
      apply Z.log2_lt_pow2; lia.
    + assert (Z.log2 b < 64); [|lia].
      destruct (Z.eq_dec b 0) as [-> | N]; [reflexivity|].
      apply Z.log2_lt_pow2; lia.
Qed.

Lemma binary_spells_the_value_witness :
  exists B,
    binary (str "36893488147419103232") = Normal B
    /\ base2_value B = 36893488147419103232.
Proof.
  destruct (binary_spells_the_value (str "36893488147419103232") 36893488147419103232
              eq_refl ltac:(lia)) as (B & HB & _ & _ & V & _).
  exists B. split; assumption.
Defined.

(** X10.  For a value below 2^64, the three fields at the offsets of the
    layout, [extractBits(x, 0, 42)], [extractBits(x, 42, 10)] and
    [extractBits(x, 52)], are exact integers within 42, 10 and 12 bits,
    and together they are the value: nothing is lost and nothing
    overlaps. *)
Theorem fields_recompose (x : jsstring) (b : Z) :
  BigInt_of_string x = Normal b -> 0 <= b < 2 ^ 64 ->
  exists ts sh sq,
    extractBits x (Num 0) (Some (Num 42)) = Normal (Num ts)
    /\ extractBits x (Num 42) (Some (Num 10)) = Normal (Num sh)
    /\ extractBits x (Num 52) None = Normal (Num sq)
    /\ 0 <= ts < 2 ^ 42 /\ 0 <= sh < 2 ^ 10 /\ 0 <= sq < 2 ^ 12
    /\ b = ts * 2 ^ 22 + sh * 2 ^ 12 + sq.
Proof.
  intros Hb R.
  rewrite (extractBits_bits x b 0 42 Hb R), (extractBits_bits x b 42 10 Hb R),
    (extractBits_bits_to_end x b 52 Hb R) by lia.
  change (64 - (0 + 42)) with 22. change (64 - (42 + 10)) with 12.
  change (64 - 52) with 12.
  change (2 ^ 64) with 18446744073709551616 in R.
  change (2 ^ 42) with 4398046511104. change (2 ^ 22) with 4194304.
  change (2 ^ 12) with 4096. change (2 ^ 10) with 1024.
  pose proof (Z.div_mod b 4194304 ltac:(lia)) as D1.
  pose proof (Z.mod_pos_bound b 4194304 ltac:(lia)) as M1.
  pose proof (Z.div_mod b 4096 ltac:(lia)) as D2.
  pose proof (Z.mod_pos_bound b 4096 ltac:(lia)) as M2.
  pose proof (Z.div_mod (b / 4096) 1024 ltac:(lia)) as D3.
  pose proof (Z.mod_pos_bound (b / 4096) 1024 ltac:(lia)) as M3.
  assert (0 <= b / 4194304 < 4398046511104) as B1 by lia.
  rewrite (Z.mod_small (b / 4194304)) by lia.
  rewrite !Number_of_Z_exact by (change (2 ^ 53) with 9007199254740992; lia).
  do 3 eexists. repeat (split; [reflexivity|]).
  repeat split; try lia.
Qed.

Lemma fields_recompose_witness :
  exists ts sh sq,
    extractBits (str "175928847299117063") (Num 0) (Some (Num 42)) = Normal (Num ts)
    /\ extractBits (str "175928847299117063") (Num 42) (Some (Num 10)) = Normal (Num sh)
    /\ extractBits (str "175928847299117063") (Num 52) None = Normal (Num sq)
    /\ 175928847299117063 = ts * 2 ^ 22 + sh * 2 ^ 12 + sq.
Proof.
  assert (0 <= 175928847299117063 < 2 ^ 64) as R by (simpl; lia).
  destruct (fields_recompose (str "175928847299117063") 175928847299117063 eq_refl R)
    as (ts & sh & sq & E1 & E2 & E3 & _ & _ & _ & S).
  exists ts, sh, sq. repeat (split; [assumption|]). exact S.
Defined.

Lemma parseInt_empty : parseInt [] 2 = NaN.
Proof. reflexivity. Qed.

(** X11.  [extractBits] has no bounds check and never throws on a
    string [BigInt] converts.  For a value below 2^64: an offset of 64
    or more gives NaN, with a length that is not negative and without
    one; an offset of 0 or less, without a length, gives the Number
    nearest to the whole value. *)
Theorem extractBits_out_of_range (x : jsstring) (b start length : Z) :
  BigInt_of_string x = Normal b -> 0 <= b < 2 ^ 64 ->
  (64 <= start -> 0 <= length ->
   extractBits x (Num start) (Some (Num length)) = Normal NaN
   /\ extractBits x (Num start) None = Normal NaN)
  /\ (start <= 0 -> extractBits x (Num start) None = Normal (Number_of_Z b)).
Proof.
  intros Hb R. unfold extractBits. rewrite (binary_bits x b Hb R).
  split.
  - intros S L.
    assert (substring (bits_msb 64 b) (Num start) None = []) as E0.
    { unfold substring. rewrite bits_msb_length. change (Z.of_nat 64) with 64.
      cbn [clamp_index]. replace (Z.min (Z.max start 0) 64) with 64 by lia.
      rewrite Z.min_id, Z.max_id. reflexivity. }
    assert (substring (bits_msb 64 b) (Num start)
              (Some (number_add (Num start) (Num length))) = []) as E1.
    { unfold substring. rewrite bits_msb_length. change (Z.of_nat 64) with 64.
      cbn [number_add]. rewrite clamp_index_beyond by lia.
      cbn [clamp_index]. replace (Z.min (Z.max start 0) 64) with 64 by lia.
      rewrite Z.min_id, Z.max_id. reflexivity. }
    rewrite E0, E1. destruct (ToBoolean (Num length)); rewrite parseInt_empty; auto.
  - intros S. unfold substring. rewrite bits_msb_length. change (Z.of_nat 64) with 64.
    cbn [clamp_index]. replace (Z.min (Z.max start 0) 64) with 0 by lia.
    rewrite Z.min_l, Z.max_r by lia. change (Z.to_nat (64 - 0)) with 64%nat.
    change (Z.to_nat 0) with 0%nat. cbn [skipn].
    rewrite firstn_all2 by (rewrite bits_msb_length; lia).
    rewrite parseInt_bits by lia. rewrite Z.mod_small by exact R. reflexivity.
Qed.

Lemma extractBits_out_of_range_witness :
  extractBits (str "4198401") (Num 64) (Some (Num 10)) = Normal NaN
  /\ extractBits (str "4198401") (Num (-5)) None = Normal (Num 4198401).
Proof.
  assert (0 <= 4198401 < 2 ^ 64) as R by (simpl; lia).
  destruct (extractBits_out_of_range (str "4198401") 4198401 64 10 eq_refl R) as [A _].
  destruct (extractBits_out_of_range (str "4198401") 4198401 (-5) 0 eq_refl R) as [_ B].
  split; [apply A; lia | apply B; lia].
Defined.

(** X12.  Nothing in [generate] keeps the identifier within 64 bits.
    With time values for the timestamp and the epoch, an offset
    timestamp - epoch that is not negative, and a shard id and a counter
    that are not negative, the identifier spells an integer that is not
    negative, and that integer is below 2^64, and its binary string
    exactly 64 characters long, exactly when the offset is below 2^42. *)
Theorem identifier_fits_64_bits (now : number) (t s e q : Z) (st : Statics) :
  Z.abs t <= max_time -> Z.abs e <= max_time -> 0 <= t - e -> 0 <= s -> 0 <= q ->
  SEQUENCE st = Num q ->
  exists id st' b B,
    generate now (options_of t s e) st = (Normal id, st')
    /\ BigInt_of_string id = Normal b
    /\ binary id = Normal B
    /\ 0 <= b
    /\ (b < 2 ^ 64 <-> t - e < 2 ^ 42)
    /\ (List.length B = 64%nat <-> t - e < 2 ^ 42).
Proof.
  intros Ht He Hd Hs Hq Hseq.
  rewrite (generate_integers now t s e q st Ht He Hseq).
  pose proof (BigInt_toString_roundtrip (encode (t - e) s q)) as Hb.
  assert (0 <= encode (t - e) s q /\ (encode (t - e) s q < 2 ^ 64 <-> t - e < 2 ^ 42))
    as [P F].
  { rewrite encode_value by assumption.
    pose proof (Z.mod_pos_bound s 1024 ltac:(lia)).
    pose proof (Z.mod_pos_bound q 4096 ltac:(lia)).
    change (2 ^ 22) with 4194304. change (2 ^ 12) with 4096.
    change (2 ^ 42) with 4398046511104. change (2 ^ 64) with 18446744073709551616.
    lia. }
  do 4 eexists. split; [reflexivity|]. split; [exact Hb|].
  split; [apply (binary_nonneg _ _ Hb P)|]. split; [exact P|]. split; [exact F|].
  rewrite bits_msb_length, <- F. pose proof (Z.log2_nonneg (encode (t - e) s q)).
  split; intros E.
  - destruct (Z.eq_dec (encode (t - e) s q) 0) as [-> | N]; [reflexivity|].
    apply Z.log2_lt_pow2; lia.
  - assert (Z.log2 (encode (t - e) s q) < 64); [|lia].
    destruct (Z.eq_dec (encode (t - e) s q) 0) as [-> | N]; [reflexivity|].
    apply Z.log2_lt_pow2; lia.
Qed.

Lemma identifier_fits_64_bits_witness :
  exists id st' b,
    generate (Num 0) (options_of 4398046511104 1 0) initial_statics = (Normal id, st')
    /\ BigInt_of_string id = Normal b
    /\ 2 ^ 64 <= b.
Proof.
  assert (Z.abs 4398046511104 <= max_time) as Ht by (unfold max_time; simpl; lia).
  assert (Z.abs 0 <= max_time) as He by (unfold max_time; simpl; lia).
  destruct (identifier_fits_64_bits (Num 0) 4398046511104 1 0 1 initial_statics
              Ht He ltac:(lia) ltac:(lia) ltac:(lia) eq_refl)
    as (id & st' & b & B & G & Hb & _ & _ & F & _).
  exists id, st', b. split; [exact G|]. split; [exact Hb|].
  destruct (Z.lt_ge_cases b (2 ^ 64)) as [L | L]; [|exact L].
  apply F in L. change (2 ^ 42) with 4398046511104 in L. lia.
Defined.

(** X13.  [parse] does not fail on a value of more than 64 bits; it
    reads the fields at the same offsets from the start of the longer
    binary string.  For a value of n > 64 bits the sequence it returns
    is the Number nearest to the low n - 52 bits, and the shard id is
    the 10 bits above them: both fields are shifted by n - 64 bits
    against the layout. *)
Theorem parse_beyond_64_bits (x : jsstring) (b e : Z) (epoch : option DateOrNumber)
  (st : Statics) :
  BigInt_of_string x = Normal b -> 2 ^ 64 <= b ->
  Date_valueOf
    (new_Date_of (match epoch with Some d => d | None => IsNumber (EPOCH st) end)) = Num e ->
  let n := Z.log2 b + 1 in
  64 < n
  /\ parse x epoch st
     = (Normal {| DeconstructedSnowflake.timestamp := Number_of_BigInt (Z.shiftr b 22 + e);
                  DeconstructedSnowflake.shard_id :=
                    Number_of_Z ((b / 2 ^ (n - 52)) mod 2 ^ 10);
                  DeconstructedSnowflake.sequence := Number_of_Z (b mod 2 ^ (n - 52));
                  DeconstructedSnowflake.binary := BigInt_toString 2 b |}, st).
Proof.
  intros Hb W He n.
  assert (64 <= Z.log2 b) as L by (apply Z.log2_le_pow2; lia).
  split; [unfold n; lia|].
  assert (binary x = Normal (bits_msb (Z.to_nat n) b)) as HB.
  { rewrite (binary_nonneg x b Hb) by lia. rewrite Nat.max_r by lia. reflexivity. }
  unfold parse, bind, read, lift, ret, extractBits.
  rewrite HB, Hb, He. cbn [BigInt_of_number ToBoolean].
  change (negb (10 =? 0)) with true. cbv iota.
  change (number_add (Num 42) (Num 10)) with (Num 52).
  rewrite substring_to; rewrite bits_msb_length; cbn [clamp_index];
    [|unfold n; lia].
  replace (Z.to_nat (Z.min (Z.max 52 0) (Z.of_nat (Z.to_nat n))) - Z.to_nat 42)%nat
    with (52 - 42)%nat by (unfold n; lia).
  change (Z.to_nat 42) with 42%nat.
  rewrite bits_msb_slice by (unfold n; lia).
  rewrite substring_from by (rewrite bits_msb_length; unfold n; lia).
  change (Z.to_nat 52) with 52%nat.
  rewrite <- (firstn_all2 (n := Z.to_nat n - 52) (skipn 52 _))
    by (rewrite length_skipn, bits_msb_length; lia).
  rewrite bits_msb_slice by (unfold n; lia).
  rewrite !parseInt_bits by (unfold n; lia).
  rewrite Nat.sub_diag, Z.div_1_r.
  replace (Z.of_nat (Z.to_nat n - 52)) with (n - 52) by (unfold n; lia).
  change (Z.of_nat (52 - 42)) with 10.
  rewrite toString2_exact by lia. reflexivity.
Qed.

Lemma parse_beyond_64_bits_witness :
  parsed DeconstructedSnowflake.sequence None initial_statics (str "18446744073709555713")
  = Some (Num 4097).
Proof.
  assert (2 ^ 64 <= 18446744073709555713) as W by (simpl; lia).
  destruct (parse_beyond_64_bits (str "18446744073709555713") 18446744073709555713 0
              None initial_statics eq_refl W eq_refl) as [_ P].
  unfold parsed. rewrite P. cbn [fst DeconstructedSnowflake.sequence].
  vm_compute. reflexivity.
Defined.

(** ** X14 and X15: strings that are not decimal numerals *)

Lemma trim_start_blank s :
  Forall (fun c => is_whitespace c = true) s -> trim_start s = [].
Proof.
  induction 1 as [|c s Hc _ IH]; [reflexivity|].
  cbn [trim_start]. rewrite Hc. exact IH.
Qed.

Lemma Date_valueOf_range d z : Date_valueOf d = Num z -> Z.abs z <= max_time.
Proof. destruct d as [v]. cbn. intros H. apply TimeClip_Num in H. tauto. Qed.

(** X14.  [parse] does not reject the empty string, nor a string of
    white space only: [BigInt] converts it to 0, and with a valid date
    for the epoch [parse] returns the record of the identifier 0, whose
    timestamp is the epoch itself; [isValid] returns false for it. *)
Theorem parse_blank (s : jsstring) (epoch : option DateOrNumber) (e : Z) (st : Statics) :
  Forall (fun c => is_whitespace c = true) s ->
  Date_valueOf
    (new_Date_of (match epoch with Some d => d | None => IsNumber (EPOCH st) end)) = Num e ->
  parse s epoch st
  = (Normal {| DeconstructedSnowflake.timestamp := Num e;
               DeconstructedSnowflake.shard_id := Num 0;
               DeconstructedSnowflake.sequence := Num 0;
               DeconstructedSnowflake.binary := cached64BitZeros |}, st)
  /\ isValid s st = (Normal false, st).
Proof.
  intros F He.
  assert (BigInt_of_string s = Normal 0) as Hb.
  { unfold BigInt_of_string, StringToBigInt, trim.
    rewrite (trim_start_blank s F). reflexivity. }
  split.
  - rewrite (parse_fields s 0 epoch e st Hb ltac:(simpl; lia) He).
    pose proof (Date_valueOf_range _ _ He) as R. unfold max_time in R.
    unfold Number_of_BigInt. rewrite Z.shiftr_0_l, Z.add_0_l.
    rewrite (Number_of_Z_exact e) by (change (2 ^ 53) with 9007199254740992; lia).
    reflexivity.
  - rewrite isValid_unfold.
    assert (digits_17_22 s = false) as ->; [|reflexivity].
    unfold digits_17_22. destruct F as [|c s Hc F]; [reflexivity|].
    cbn [forallb]. destruct (is_decimal_digit c) eqn:D.
    + destruct (decimal_digit_facts c D) as (W & _). congruence.
    + cbn [andb]. apply andb_false_r.
Qed.

Lemma parse_blank_witness :
  parsed DeconstructedSnowflake.timestamp (Some (IsNumber (Num 946684800000)))
    initial_statics (str "  ")
  = Some (Num 946684800000).
Proof.
  assert (Forall (fun c => is_whitespace c = true) (str "  ")) as F
    by (repeat constructor).
  destruct (parse_blank (str "  ") (Some (IsNumber (Num 946684800000))) 946684800000
              initial_statics F eq_refl) as [P _].
  unfold parsed. rewrite P. reflexivity.
Defined.

Lemma digits_value_chars radix s : forall acc v,
  digits_value radix acc s = Some v -> forall c, In c s -> digit_value c <> None.
Proof.
  induction s as [|a s IH]; intros acc v H c I; [destruct I|].
  cbn [digits_value] in H. unfold radix_digit in H.
  destruct (digit_value a) as [d|] eqn:D; [|discriminate].
  destruct (d <? radix); [|discriminate].
  destruct I as [<- | I]; [congruence | exact (IH _ _ H c I)].
Qed.

Lemma nonempty_digits_value_chars radix s v :
  nonempty_digits_value radix s = Some v -> forall c, In c s -> digit_value c <> None.
Proof.
  destruct s as [|a s]; [discriminate|]. apply digits_value_chars.
Qed.

Lemma In_trim_start c s :
  In c s -> is_whitespace c = false -> In c (trim_start s).
Proof.
  intros I W. induction s as [|a s IH]; [destruct I|].
  cbn [trim_start]. destruct (is_whitespace a) eqn:Wa; [|exact I].
  destruct I as [-> | I]; [congruence | exact (IH I)].
Qed.

Lemma In_trim c s : In c s -> is_whitespace c = false -> In c (trim s).
Proof.
  intros I W. unfold trim. apply -> in_rev. apply In_trim_start; [|exact W].
  apply -> in_rev. apply In_trim_start; assumption.
Qed.

Lemma prefix_char_facts c :
  (is_char c "+" = true -> is_char c "+-" = true)
  /\ (is_char c "-" = true -> is_char c "+-" = true)
  /\ (is_char c "0" = true -> digit_value c <> None)
  /\ (is_char c "xX" = true -> digit_value c <> None)
  /\ (is_char c "oO" = true -> digit_value c <> None)
  /\ (is_char c "bB" = true -> digit_value c <> None).
Proof.
  pose proof (ascii_forall
    (fun c => let has_value := match digit_value c with Some _ => true | None => false end in
       implb (is_char c "+") (is_char c "+-") && implb (is_char c "-") (is_char c "+-")
       && implb (is_char c "0") has_value && implb (is_char c "xX") has_value
       && implb (is_char c "oO") has_value && implb (is_char c "bB") has_value)
    eq_refl c) as H.
  cbv beta zeta in H.
  repeat (apply andb_prop in H; destruct H as [H ?]).
  repeat split; intros E;
    match goal with X : implb ?a _ = true |- _ =>
      match type of E with a = true => rewrite E in X; cbn [implb] in X;
        try exact X; destruct (digit_value c); congruence end
    end.
Qed.

(** The characters of a string [BigInt] converts: white space, signs,
    and letters and digits. *)
Lemma StringToBigInt_chars s z :
  StringToBigInt s = Some z ->
  forall c, In c s ->
    is_whitespace c = true \/ is_char c "+-" = true \/ digit_value c <> None.
Proof.
  intros H c I. destruct (is_whitespace c) eqn:W; [auto | right].
  apply In_trim in I; [|exact W]. unfold StringToBigInt in H.
  destruct (trim s) as [|c0 rest]; [destruct I|].
  destruct (prefix_char_facts c0) as (Pp & Pm & P0 & _).
  destruct (is_char c0 "+") eqn:Ep.
  { destruct I as [<- | I]; [auto | right].
    exact (nonempty_digits_value_chars _ _ _ H c I). }
  destruct (is_char c0 "-") eqn:Em.
  { destruct I as [<- | I]; [auto | right].
    destruct (nonempty_digits_value 10 rest) eqn:V; [|discriminate].
    exact (nonempty_digits_value_chars _ _ _ V c I). }
  right. destruct rest as [|p ds].
  { exact (digits_value_chars _ _ _ _ H c I). }
  destruct (prefix_char_facts p) as (_ & _ & _ & Px & Po & Pb).
  destruct (is_char c0 "0") eqn:E0; cbn [andb] in H;
    [|exact (digits_value_chars _ _ _ _ H c I)].
  assert (forall r, nonempty_digits_value r ds = Some z -> digit_value p <> None ->
          digit_value c <> None) as K.
  { intros r V Dp. destruct I as [<- | [<- | I]]; auto.
    exact (nonempty_digits_value_chars _ _ _ V c I). }
  destruct (is_char p "xX") eqn:Ex; [exact (K _ H (Px eq_refl))|].
  destruct (is_char p "oO") eqn:Eo; [exact (K _ H (Po eq_refl))|].
  destruct (is_char p "bB") eqn:Eb; [exact (K _ H (Pb eq_refl))|].
  exact (digits_value_chars _ _ _ _ H c I).
Qed.

(** X15.  A string that holds a character other than white space, a
    sign, a letter or a digit (a decimal point, an underscore, a comma)
    is rejected with a SyntaxError by [binary], [extractBits] and
    [parse] alike, whatever the epoch and the statics, and [isValid]
    returns false for it. *)
Theorem rejects_other_characters (s : jsstring) (c : ascii) (start : number)
  (length : option number) (epoch : option DateOrNumber) (st : Statics) :
  In c s -> is_whitespace c = false -> is_char c "+-" = false -> digit_value c = None ->
  binary s = Throw SyntaxError
  /\ extractBits s start length = Throw SyntaxError
  /\ parse s epoch st = (Throw SyntaxError, st)
  /\ isValid s st = (Normal false, st).
Proof.
  intros I W Sg D.
  assert (BigInt_of_string s = Throw SyntaxError) as Hb.
  { unfold BigInt_of_string. destruct (StringToBigInt s) as [z|] eqn:E; [|reflexivity].
    destruct (StringToBigInt_chars s z E c I) as [X | [X | X]]; congruence. }
  assert (binary s = Throw SyntaxError) as HB by (unfold binary; rewrite Hb; reflexivity).
  split; [exact HB|]. split; [unfold extractBits; rewrite HB; reflexivity|].
  split; [apply parse_propagates; exact Hb|].
  rewrite isValid_unfold, (parse_propagates s None st SyntaxError Hb).
  cbn [fst returns]. rewrite andb_false_r. reflexivity.
Qed.

Lemma rejects_other_characters_witness :
  parse (str "12345678901234567.5") None initial_statics
  = (Throw SyntaxError, initial_statics).
Proof.
  refine (proj1 (proj2 (proj2
    (rejects_other_characters (str "12345678901234567.5") "."%char (Num 0) None None
       initial_statics _ eq_refl eq_refl eq_refl)))).
  vm_compute. tauto.
Defined.

(** ** X16: leading zeros *)

(** [binary], [extractBits] and [parse] read a string through [BigInt]
    only. *)
Lemma same_value_same_results x y :
  BigInt_of_string x = BigInt_of_string y ->
  binary x = binary y
  /\ (forall start length, extractBits x start length = extractBits y start length)
  /\ (forall epoch st, parse x epoch st = parse y epoch st).
Proof.
  intros E.
  assert (binary x = binary y) as B by (unfold binary; rewrite E; reflexivity).
  assert (forall start length, extractBits x start length = extractBits y start length) as X.
  { intros start length. unfold extractBits. rewrite B. reflexivity. }
  split; [exact B|]. split; [exact X|].
  intros epoch st. unfold parse. rewrite B, E, !X. reflexivity.
Qed.

Lemma digits_value_zeros k : digits_value 10 0 (repeat "0"%char k) = Some 0.
Proof. induction k as [|k IH]; [reflexivity | exact IH]. Qed.

(** X16.  Zeros in front of a decimal numeral change nothing for
    [binary], [extractBits] and [parse]; but they count for the pattern
    of [isValid], which (with a valid default epoch) accepts the padded
    string as soon as it has 17 to 22 characters, whatever the value. *)
Theorem leading_zeros (s : jsstring) (k : nat) :
  s <> [] -> Forall (fun c => is_decimal_digit c = true) s ->
  let padded := repeat "0"%char k ++ s in
  binary padded = binary s
  /\ (forall start length, extractBits padded start length = extractBits s start length)
  /\ (forall epoch st, parse padded epoch st = parse s epoch st)
  /\ (forall st, valid_date (new_Date (EPOCH st)) ->
      (17 <= k + List.length s <= 22)%nat ->
      isValid padded st = (Normal true, st)).
Proof.
  intros NE F padded.
  assert (Forall (fun c => is_decimal_digit c = true) padded) as FP.
  { apply Forall_app. split; [|exact F].
    apply Forall_forall. intros c I. apply repeat_spec in I. subst c. reflexivity. }
  assert (padded <> []) as NP.
  { unfold padded. intros E. apply app_eq_nil in E. tauto. }
  assert (BigInt_of_string padded = BigInt_of_string s) as E.
  { unfold BigInt_of_string.
    destruct (StringToBigInt_decimal padded NP FP) as [-> _].
    destruct (StringToBigInt_decimal s NE F) as [-> _].
    unfold padded. rewrite digits_value_app, digits_value_zeros. reflexivity. }
  destruct (same_value_same_results padded s E) as (B & X & P).
  repeat (split; [assumption|]).
  intros st V L. rewrite isValid_unfold.
  destruct (StringToBigInt_decimal padded NP FP) as [Eq N].
  destruct (digits_value 10 0 padded) as [b|] eqn:Hb; [|congruence].
  destruct (parse_returns padded None st b V) as [r ->];
    [unfold BigInt_of_string; rewrite Eq; reflexivity|].
  cbn [fst returns]. rewrite andb_true_r. unfold digits_17_22.
  assert (List.length padded = (k + List.length s)%nat) as ->
    by (unfold padded; rewrite length_app, repeat_length; reflexivity).
  assert (forallb is_decimal_digit padded = true) as ->
    by (apply forallb_forall, Forall_forall; exact FP).
  destruct (Nat.leb_spec 17 (k + List.length s)), (Nat.leb_spec (k + List.length s) 22);
    try reflexivity; lia.
Qed.

Lemma leading_zeros_witness :
  isValid (str "4198401") initial_statics = (Normal false, initial_statics)
  /\ isValid (str "00000000004198401") initial_statics = (Normal true, initial_statics)
  /\ parse (str "00000000004198401") None initial_statics
     = parse (str "4198401") None initial_statics.
Proof.
  assert (str "4198401" <> []) as NE by discriminate.
  assert (Forall (fun c => is_decimal_digit c = true) (str "4198401")) as F
    by (repeat constructor).
  destruct (leading_zeros (str "4198401") 10 NE F) as (_ & _ & P & V).
  split; [reflexivity|]. split.
  - apply V; [vm_compute; discriminate | simpl; lia].
  - apply P.
Defined.
